(** * tailcat: the tailing engine of [source/index.ts]

    A shallow embedding of the [TailCat] class: the line splitter inside
    [streamFileFromCursor], the read pass itself, and the asynchronous
    session (watch / unwatch / the [fs.watch] listener) as an event-driven
    machine whose steps are the code segments between two [await]s. *)

From Stdlib Require Import String Ascii List ZArith Lia Bool.
Import ListNotations.
Open Scope string_scope.
Open Scope Z_scope.

(** ** JavaScript string and array primitives used by the source

    Strings are byte strings: the watched file is taken to hold one-byte
    characters, so that [item.toString()] is the identity on a chunk.
    This is exact for files of ASCII bytes ([asciiOnly]); the general
    statements about what is blank and about chunk boundaries assume
    it. *)
Module Js.

(** [os.EOL] on POSIX hosts. *)
Definition LF : string := String "010"%char EmptyString.

(** The white space that [String.prototype.trim] strips, restricted to
    one-byte characters: TAB, LF, VT, FF, CR and SPACE. *)
Definition isWhiteSpace (c : ascii) : bool :=
  let n := nat_of_ascii c in
  (Nat.leb 9 n && Nat.leb n 13) || Nat.eqb n 32.

Fixpoint trimStart (s : string) : string :=
  match s with
  | EmptyString => EmptyString
  | String c s' => if isWhiteSpace c then trimStart s' else s
  end.

Fixpoint trimEnd (s : string) : string :=
  match s with
  | EmptyString => EmptyString
  | String c s' =>
      let t := trimEnd s' in
      if isWhiteSpace c && (t =? "")%string then EmptyString else String c t
  end.

Definition trim (s : string) : string := trimEnd (trimStart s).

(** Every character of [s] is white space. *)
Definition allWhiteSpace (s : string) : bool :=
  forallb isWhiteSpace (list_ascii_of_string s).

(** Every byte of [s] is below 128.  On such bytes [toString()] is the
    identity whatever the chunk boundaries, and the white space of
    [trim] is exactly the one of [isWhiteSpace]. *)
Definition asciiOnly (s : string) : bool :=
  forallb (fun c => Nat.ltb (nat_of_ascii c) 128) (list_ascii_of_string s).

(** Truthiness of a string value: only the empty string is falsy. *)
Definition truthy (s : string) : bool := negb (s =? "")%string.

(** The test of lines 231-233 negated: [chunk.trim()] is truthy. *)
Definition notBlank (chunk : string) : bool := truthy (trim chunk).

(** Truthiness of a property that holds a function object (a method that
    is read but not called): every object is truthy. *)
Definition truthyMethod {A B : Type} (method : A -> B) : bool := true.

(** [s.endsWith(suffix)]. *)
Fixpoint endsWith (s suffix : string) : bool :=
  (s =? suffix)%string ||
  match s with
  | EmptyString => false
  | String _ s' => endsWith s' suffix
  end.

(** [s.includes(sep)]: [sep] occurs somewhere in [s]. *)
Fixpoint includes (s sep : string) : bool :=
  prefix sep s ||
  match s with
  | EmptyString => false
  | String _ s' => includes s' sep
  end.

(** [s.split(sep)] for a non-empty separator: cut at every occurrence of
    [sep], scanning from the left, occurrences not overlapping.  [skip]
    counts the characters of a matched separator still to be passed. *)
Fixpoint splitFrom (sep : string) (skip : nat) (s : string) : list string :=
  match s with
  | EmptyString => [EmptyString]
  | String c s' =>
      match skip with
      | S k => splitFrom sep k s'
      | O =>
          if prefix sep s
          then EmptyString :: splitFrom sep (Nat.pred (String.length sep)) s'
          else match splitFrom sep 0 s' with
               | seg :: rest => String c seg :: rest
               | [] => [String c EmptyString]
               end
      end
  end.

Definition split (s sep : string) : list string := splitFrom sep 0 s.

(** [chunks.pop()]: the last element ([undefined] on an empty array) and
    the array without it. *)
Definition pop (chunks : list string) : option string * list string :=
  match rev chunks with
  | [] => (None, [])
  | x :: r => (Some x, rev r)
  end.

(** [chunks[0]]: [undefined] on an empty array. *)
Definition first (chunks : list string) : option string :=
  match chunks with
  | [] => None
  | x :: _ => Some x
  end.

(** [chunks[0] = v]: an empty array grows to length one. *)
Definition setFirst (chunks : list string) (v : string) : list string :=
  match chunks with
  | [] => [v]
  | _ :: r => v :: r
  end.

(** A value inside a template literal: [undefined] prints as the text
    "undefined". *)
Definition interpolate (v : option string) : string :=
  match v with
  | Some s => s
  | None => "undefined"
  end.

End Js.

(** ** The line splitter: the body of the [for await] loop of
    [streamFileFromCursor] (lines 214-237). *)
Module Splitter.
Import Js.

(** One iteration.  [tail] is the fragment carried from the previous chunk
    of the same stream; it is only ever read inside the template literal of
    line 226, so it is kept as the text it prints there.  The result is the
    list of lines passed to [this.emit('data', chunk)], in order, and the
    new [tail]. *)
Definition processChunk (EOL : string) (tail stringChunk : string)
  : list string * string :=
  let hasTail := negb (endsWith stringChunk EOL) in
  let chunks := split stringChunk EOL in
  let '(currentTail, chunks) :=
    if hasTail
    then (let '(last, rest) := pop chunks in (interpolate last, rest))
    else (EmptyString, chunks) in
  let chunks := setFirst chunks (tail ++ interpolate (first chunks)) in
  let tail := currentTail in
  (filter notBlank chunks, tail).

(** The whole loop over the chunks the stream delivers, starting from
    [tail = ''] (line 211 declares [tail] inside the pass). *)
Fixpoint processChunks (EOL : string) (tail : string) (items : list string)
  : list string * string :=
  match items with
  | [] => ([], tail)
  | item :: items' =>
      let '(lines, tail') := processChunk EOL tail item in
      let '(lines', tail'') := processChunks EOL tail' items' in
      ((lines ++ lines')%list, tail'')
  end.

(** The bytes a stream delivered, put back together. *)
Definition joined (items : list string) : string :=
  fold_right append EmptyString items.

(** What a splitter owes for [bytes]: the segments that are followed by a
    separator, and the unterminated rest after the last separator. *)
Definition completeLines (EOL bytes : string) : list string :=
  removelast (split bytes EOL).

Definition unterminated (EOL bytes : string) : string :=
  last (split bytes EOL) EmptyString.

End Splitter.


(** ** The file-system calls the class makes on [this.#filePath] *)
Module Fs.

Inductive Error : Type :=
| NoFileName                    (* Error('No file name has been passed') *)
| CanOnlyWatchFiles             (* Error('Can only watch files') *)
| SystemError (code : string).  (* an error of [fs], with its [err.code] *)

(** [err.code]: [undefined] on a plain [Error]. *)
Definition code (err : Error) : option string :=
  match err with
  | SystemError c => Some c
  | _ => None
  end.

(** [err.code !== 'ENOENT']. *)
Definition notENOENT (err : Error) : bool :=
  match code err with
  | Some c => negb (c =? "ENOENT")%string
  | None => true
  end.

Definition ENOENT : Error := SystemError "ENOENT".
Definition EISDIR : Error := SystemError "EISDIR".

Inductive Result (A : Type) : Type :=
| Ok (value : A)
| Throw (err : Error).
Arguments Ok {A} value.
Arguments Throw {A} err.

(** [fs.Stats]: [size] is a number, [isFile] is a method. *)
Record Stats : Type := { size : Z; isFile : unit -> bool }.

(** What [for await (const item of fileStream)] sees: the chunks delivered,
    then either the end of the stream or an error thrown into the loop. *)
Record ReadStream : Type := { items : list string; failure : option Error }.

(** The answers of the file system at one moment: [promises.stat(path)]
    and [createReadStream(path, {start, end})]. *)
Record FileSystem : Type :=
  { stat : Result Stats;
    createReadStream : Z -> Z -> ReadStream }.

(** What can be found at the watched path. *)
Inductive Node : Type :=
| Missing
| Directory (reportedSize : Z)
| Regular (content : string).

(** Default [highWaterMark] of [fs.ReadStream] in Node.js: 64 KiB. *)
Definition defaultHighWaterMark : nat := Z.to_nat 65536.

(** A stream delivers its bytes in chunks of at most [highWaterMark]. *)
Fixpoint chunksOf (fuel highWaterMark : nat) (bytes : string) : list string :=
  match fuel with
  | O => []
  | S fuel' =>
      match bytes with
      | EmptyString => []
      | _ =>
          substring 0 highWaterMark bytes ::
          chunksOf fuel' highWaterMark
            (substring highWaterMark (String.length bytes - highWaterMark) bytes)
      end
  end.

(** Bytes [start .. end] of the file, [end] included, as far as the file
    reaches.  [start] is taken to be a non-negative integer, as the
    cursor of a session is unless a size below zero was stored in it;
    [createReadStream] refuses any other. *)
Definition byteRange (content : string) (start end_ : Z) : string :=
  substring (Z.to_nat start) (Z.to_nat (end_ - start + 1)) content.

Definition snapshot (highWaterMark : nat) (node : Node) : FileSystem :=
  match node with
  | Missing =>
      {| stat := Throw ENOENT;
         createReadStream := fun _ _ => {| items := []; failure := Some ENOENT |} |}
  | Directory reportedSize =>
      {| stat := Ok {| size := reportedSize; isFile := fun _ => false |};
         createReadStream := fun _ _ => {| items := []; failure := Some EISDIR |} |}
  | Regular content =>
      {| stat := Ok {| size := Z.of_nat (String.length content);
                       isFile := fun _ => true |};
         createReadStream := fun start end_ =>
           let bytes := byteRange content start end_ in
           {| items := chunksOf (String.length bytes) highWaterMark bytes;
              failure := None |} |}
  end.

End Fs.

(** ** The class [TailCat] *)
Module Session.
Import Js Fs.

(** A handle returned by [watch(this.#filePath, listener)]. *)
Definition FSWatcher : Type := nat.

(** The private fields. *)
Record TailCat : Type :=
  { cursor : Z;
    isReading : bool;
    watcher : option FSWatcher;
    filePath : string;
    internalQueue : Z }.

Definition setCursor (c : Z) (t : TailCat) : TailCat :=
  {| cursor := c; isReading := isReading t; watcher := watcher t;
     filePath := filePath t; internalQueue := internalQueue t |}.

Definition setIsReading (b : bool) (t : TailCat) : TailCat :=
  {| cursor := cursor t; isReading := b; watcher := watcher t;
     filePath := filePath t; internalQueue := internalQueue t |}.

Definition setWatcher (w : option FSWatcher) (t : TailCat) : TailCat :=
  {| cursor := cursor t; isReading := isReading t; watcher := w;
     filePath := filePath t; internalQueue := internalQueue t |}.

Definition setInternalQueue (q : Z) (t : TailCat) : TailCat :=
  {| cursor := cursor t; isReading := isReading t; watcher := watcher t;
     filePath := filePath t; internalQueue := q |}.

(** [validateFileName] (lines 14-18): an assertion that narrows
    [string | undefined] to [string]. *)
Definition validateFileName (fileName : option string) : Result string :=
  match fileName with
  | None => Throw NoFileName
  | Some name => Ok name
  end.

(** [constructor] (lines 27-33), with the field initialisers of lines
    21-25. *)
Definition constructor (fileName : option string) : Result TailCat :=
  match validateFileName fileName with
  | Throw err => Throw err
  | Ok name =>
      Ok {| cursor := 0; isReading := false; watcher := None;
            filePath := name; internalQueue := 0 |}
  end.

(** [streamFileFromCursor] (lines 186-240), run against what the file
    system answers during the pass.  The result is the session after the
    pass, the lines emitted, and the error thrown, if any. *)
Definition streamFileFromCursor (EOL : string) (fs : FileSystem) (t : TailCat)
  : TailCat * list string * option Error :=
  match stat fs with
  | Throw err => (t, [], Some err)
  | Ok stats =>
      let currentFileSize := size stats in
      if currentFileSize <=? 0 then (t, [], None)
      else
        let nextCursor := currentFileSize in
        if cursor t >=? nextCursor then (t, [], None)
        else
          let fileStream := createReadStream fs (cursor t) nextCursor in
          let '(lines, _) := Splitter.processChunks EOL "" (items fileStream) in
          match failure fileStream with
          | Some err => (t, lines, Some err)
          | None => (setCursor nextCursor t, lines, None)
          end
  end.

(** What the caller and the runtime observe of the asynchronous methods. *)
Inductive Outcome : Type :=
| WatchResolved                   (* a [watch()] promise resolved *)
| WatchRejected (err : Error)     (* a [watch()] promise rejected *)
| UnwatchResolved (cursor : Z)    (* an [unwatch()] promise resolved *)
| ListenerRejected (err : Error). (* the listener's promise rejected *)

(** A suspended activation: the [await] it is parked on and its locals.
    An awaited [streamFileFromCursor] takes effect in one step, when it
    settles: its emissions and its cursor update are not interleaved with
    other activations of the session. *)
Inductive Task : Type :=
| AwaitStat                                (* processFromFileName, line 101 *)
| AwaitDirectoryWatcher                    (* processFromFileName, line 112 *)
| AwaitCatchUp (currentFileSize : option Z) (* processFromFileName, line 128 *)
| AwaitPass.                               (* the listener, line 166 *)

(** The session together with its suspended activations and a record of
    what it did: the file watches open and ever attached, the 'data'
    events emitted, the passes the listener started. *)
Record Machine : Type :=
  { this : TailCat;
    tasks : list Task;
    opened : list FSWatcher;
    attached : nat;
    emitted : list string;
    outcomes : list Outcome;
    passes : nat }.

Definition withThis (f : TailCat -> TailCat) (m : Machine) : Machine :=
  {| this := f (this m); tasks := tasks m; opened := opened m;
     attached := attached m; emitted := emitted m; outcomes := outcomes m;
     passes := passes m |}.

Definition spawn (task : Task) (m : Machine) : Machine :=
  {| this := this m; tasks := tasks m ++ [task]; opened := opened m;
     attached := attached m; emitted := emitted m; outcomes := outcomes m;
     passes := passes m |}.

Definition settle (o : Outcome) (m : Machine) : Machine :=
  {| this := this m; tasks := tasks m; opened := opened m;
     attached := attached m; emitted := emitted m;
     outcomes := outcomes m ++ [o]; passes := passes m |}.

Definition emit (lines : list string) (m : Machine) : Machine :=
  {| this := this m; tasks := tasks m; opened := opened m;
     attached := attached m; emitted := emitted m ++ lines;
     outcomes := outcomes m; passes := passes m |}.

Definition countPass (m : Machine) : Machine :=
  {| this := this m; tasks := tasks m; opened := opened m;
     attached := attached m; emitted := emitted m; outcomes := outcomes m;
     passes := S (passes m) |}.

(** [watcher.close()] on a file watch. *)
Definition close (w : FSWatcher) (m : Machine) : Machine :=
  {| this := this m; tasks := tasks m;
     opened := filter (fun w' => negb (Nat.eqb w' w)) (opened m);
     attached := attached m; emitted := emitted m; outcomes := outcomes m;
     passes := passes m |}.

(** [watch(this.#filePath, listener)]: a new handle, now open. *)
Definition fsWatch (m : Machine) : FSWatcher * Machine :=
  (attached m,
   {| this := this m; tasks := tasks m; opened := attached m :: opened m;
      attached := S (attached m); emitted := emitted m;
      outcomes := outcomes m; passes := passes m |}).

Definition removeTask (i : nat) (m : Machine) : Machine :=
  {| this := this m; tasks := firstn i (tasks m) ++ skipn (S i) (tasks m);
     opened := opened m; attached := attached m; emitted := emitted m;
     outcomes := outcomes m; passes := passes m |}.

(** [a < b] and [a > b] where [b] may be [undefined]: both are false
    then. *)
Definition ltNumber (a : Z) (b : option Z) : bool :=
  match b with Some b => a <? b | None => false end.

Definition gtNumber (a : Z) (b : option Z) : bool :=
  match b with Some b => a >? b | None => false end.

(** The body of [unwatch] up to its [return] (lines 63-64). *)
Definition unwatchBody (m : Machine) : Machine :=
  let m := match watcher (this m) with
           | Some w => close w m
           | None => m
           end in
  withThis (setWatcher None) m.

(** [unwatch()] (lines 62-67). *)
Definition unwatch (m : Machine) : Machine :=
  let m := unwatchBody m in
  settle (UnwatchResolved (cursor (this m))) m.

(** Lines 142-180 of [processFromFileName]: the final check and the
    attachment of the listener ([fs.watch] itself is taken to succeed). *)
Definition attach (m : Machine) : Machine :=
  match watcher (this m) with
  | Some _ => m
  | None =>
      let '(w, m) := fsWatch m in
      withThis (setWatcher (Some w)) m
  end.

(** Lines 134-181: from the clamp to the end of [processFromFileName],
    where the promise of [watch()] resolves. *)
Definition afterCatchUp (currentFileSize : option Z) (m : Machine) : Machine :=
  let m := if gtNumber (cursor (this m)) currentFileSize
           then match currentFileSize with
                | Some sz => withThis (setCursor sz) m
                | None => m
                end
           else m in
  settle WatchResolved (attach m).

(** Lines 119-129.  [this.#cursor] is a number, never [undefined]: the
    test of line 119 is false. *)
Definition afterTry (currentFileSize : option Z) (m : Machine) : Machine :=
  if ltNumber (cursor (this m)) currentFileSize
  then spawn (AwaitCatchUp currentFileSize) m
  else afterCatchUp currentFileSize m.

(** Lines 100-112: the [try] body on the answer of [promises.stat], then
    the [catch] clause up to the call of [directoryWatcher]. *)
Definition afterStat (answer : Result Stats) (m : Machine) : Machine :=
  let tried : Result (option Z) :=
    match answer with
    | Throw err => Throw err
    | Ok fileData =>
        let currentFileSize := Some (size fileData) in
        if negb (truthyMethod (isFile fileData))
        then Throw CanOnlyWatchFiles
        else Ok currentFileSize
    end in
  match tried with
  | Ok currentFileSize => afterTry currentFileSize m
  | Throw err =>
      if notENOENT err
      then settle (WatchRejected err) m
      else spawn AwaitDirectoryWatcher m
  end.

(** Lines 112-114 after [directoryWatcher()] settles: it resolves on a
    'rename' of the file's base name and rejects on a watch error.
    [currentFileSize] is still [undefined]. *)
Definition afterDirectoryWatcher (answer : Result unit) (m : Machine) : Machine :=
  match answer with
  | Throw err => settle (WatchRejected err) m
  | Ok _ => afterTry None m
  end.

(** [watch({cursor})] (lines 40-55) up to the first [await] inside
    [processFromFileName]. *)
Definition watch (cursorOption : option Z) (m : Machine) : Machine :=
  let cursor := match cursorOption with
                | Some c => c
                | None => cursor (this m)
                end in
  match watcher (this m) with
  | Some _ => settle WatchResolved m
  | None => spawn AwaitStat (withThis (setCursor cursor) m)
  end.

(** The event types of [fs.watch]. *)
Inductive WatchEvent : Type := rename | change.

(** What can happen to a session: a call by its owner, an awaited
    operation of activation [task] settling, a notification of an open
    file watch. *)
Inductive Event : Type :=
| CallWatch (cursorOption : option Z)
| CallUnwatch
| StatSettles (task : nat) (answer : Result Stats)
| DirectoryWatcherSettles (task : nat) (answer : Result unit)
| PassSettles (task : nat) (fs : FileSystem)
| Notify (w : FSWatcher) (event : WatchEvent).

Section Engine.

Variable EOL : string.

(** Line 128 after the catch-up pass settles. *)
Definition afterCatchUpPass (currentFileSize : option Z) (fs : FileSystem)
  (m : Machine) : Machine :=
  let '(t, lines, thrown) := streamFileFromCursor EOL fs (this m) in
  let m := emit lines (withThis (fun _ => t) m) in
  match thrown with
  | Some err => settle (WatchRejected err) m
  | None => afterCatchUp currentFileSize m
  end.

(** Lines 165-166: the head of the [do] loop, up to the [await]. *)
Definition startPass (m : Machine) : Machine :=
  spawn AwaitPass (countPass (withThis (setIsReading true) m)).

(** Lines 177-179: the loop test and the statement after the loop. *)
Definition loopTest (m : Machine) : Machine :=
  if negb (internalQueue (this m) =? 0)
  then startPass m
  else withThis (setIsReading false) m.

(** Lines 166-177 after the listener's pass settles. *)
Definition afterPass (fs : FileSystem) (m : Machine) : Machine :=
  let '(t, lines, thrown) := streamFileFromCursor EOL fs (this m) in
  let m := emit lines (withThis (fun _ => t) m) in
  match thrown with
  | None =>
      loopTest (withThis (fun t => setInternalQueue (internalQueue t - 1) t) m)
  | Some err =>
      if notENOENT err
      then settle (ListenerRejected err) (unwatchBody m)
      else loopTest (withThis (fun t => setIsReading false (setInternalQueue 0 t)) m)
  end.

(** The listener (lines 146-163), up to its first [await]. *)
Definition listener (event : WatchEvent) (m : Machine) : Machine :=
  match event with
  | rename => m
  | change =>
      let m := withThis (fun t => setInternalQueue (internalQueue t + 1) t) m in
      if isReading (this m) then m else startPass m
  end.

Definition step (m : Machine) (e : Event) : Machine :=
  match e with
  | CallWatch cursorOption => watch cursorOption m
  | CallUnwatch => unwatch m
  | StatSettles i answer =>
      match nth_error (tasks m) i with
      | Some AwaitStat => afterStat answer (removeTask i m)
      | _ => m
      end
  | DirectoryWatcherSettles i answer =>
      match nth_error (tasks m) i with
      | Some AwaitDirectoryWatcher => afterDirectoryWatcher answer (removeTask i m)
      | _ => m
      end
  | PassSettles i fs =>
      match nth_error (tasks m) i with
      | Some (AwaitCatchUp currentFileSize) =>
          afterCatchUpPass currentFileSize fs (removeTask i m)
      | Some AwaitPass => afterPass fs (removeTask i m)
      | _ => m
      end
  | Notify w event =>
      if existsb (Nat.eqb w) (opened m) then listener event m else m
  end.

Definition run (m : Machine) (events : list Event) : Machine :=
  fold_left step events m.

End Engine.

(** The file watches open are exactly the one the session holds in
    [#watcher], if any. *)
Definition oneHandle (m : Machine) : Prop :=
  opened m = match watcher (this m) with
             | Some w => [w]
             | None => []
             end.

(** A session just constructed, nothing suspended, nothing observed. *)
Definition start (t : TailCat) : Machine :=
  {| this := t; tasks := []; opened := []; attached := 0%nat;
     emitted := []; outcomes := []; passes := 0%nat |}.

End Session.

(** ** Inputs used in the examples *)
Module Scenario.
Import Js Fs Session.

(** [n] copies of one character. *)
Fixpoint replicate (n : nat) (c : ascii) : string :=
  match n with
  | O => EmptyString
  | S n' => String c (replicate n' c)
  end.

(** A line as long as one chunk of the read stream. *)
Definition longLine : string := replicate defaultHighWaterMark "a"%char.

(** The file holding [content], read through a stream with the default
    [highWaterMark]. *)
Definition regular (content : string) : FileSystem :=
  snapshot defaultHighWaterMark (Regular content).

Definition directory (reportedSize : Z) : FileSystem :=
  snapshot defaultHighWaterMark (Directory reportedSize).

Definition deleted : FileSystem := snapshot defaultHighWaterMark Missing.

(** [new TailCat(name)] for a string [name]. *)
Definition fresh (name : string) : Machine :=
  start {| cursor := 0; isReading := false; watcher := None;
           filePath := name; internalQueue := 0 |}.

(** A session that called [watch()] on an empty file and is now watching
    it, idle. *)
Definition watchingEmptyFile (name : string) : Machine :=
  run LF (fresh name) [CallWatch None; StatSettles 0 (stat (regular ""))].

Fixpoint eqbLines (a b : list string) : bool :=
  match a, b with
  | [], [] => true
  | x :: a', y :: b' => andb (x =? y)%string (eqbLines a' b')
  | _, _ => false
  end.

End Scenario.

(** ** [directoryWatcher] (lines 74-91) *)
Module DirectoryWatcher.
Import Js Fs Session.

(** What the watch on the parent directory delivers to the two handlers:
    a 'change' event with its type and file name ([null] when the platform
    gives none), or an 'error'. *)
Inductive Report : Type :=
| Changed (event : WatchEvent) (fileName : option string)
| Failed (err : Error).

Section Promise.

(** [path.basename]. *)
Variable basename : string -> string.

(** The test of lines 79-82: the 'change' handler calls [resolve]. *)
Definition resolves (t : TailCat) (event : WatchEvent)
  (fileName : option string) : bool :=
  match event, fileName with
  | rename, Some name => (name =? basename (filePath t))%string
  | _, _ => false
  end.

(** The promise returned by [directoryWatcher] after the reports
    delivered so far: [None] while it is pending.  A promise settles
    once; what the handlers do afterwards changes nothing. *)
Fixpoint directoryWatcher (t : TailCat) (reports : list Report)
  : option (Result unit) :=
  match reports with
  | [] => None
  | Changed event fileName :: reports' =>
      if resolves t event fileName
      then Some (Ok tt)
      else directoryWatcher t reports'
  | Failed err :: _ => Some (Throw err)
  end.

(** Line 112 of [processFromFileName]: activation [task] awaits the
    promise.  [attempt] is what [watch(dirname(...))] of line 75 does: it
    returns a watch, which then delivers [reports], or it throws at once
    (the parent directory is missing, say) and the promise is rejected
    with that error. *)
Definition awaitDirectoryWatcher (EOL : string) (task : nat)
  (attempt : Result unit) (reports : list Report) (m : Machine) : Machine :=
  match attempt with
  | Throw err => step EOL m (DirectoryWatcherSettles task (Throw err))
  | Ok _ =>
      match directoryWatcher (this m) reports with
      | Some answer => step EOL m (DirectoryWatcherSettles task answer)
      | None => m
      end
  end.

End Promise.

(** A report that leaves the promise pending. *)
Definition ignored (basename : string -> string) (t : TailCat)
  (report : Report) : bool :=
  match report with
  | Changed event fileName => negb (resolves basename t event fileName)
  | Failed _ => false
  end.

End DirectoryWatcher.

(** ** Measures of a session used in the invariants *)
Module Accounting.
Import Js Fs Session.

Definition isAwaitPass (task : Task) : bool :=
  match task with
  | AwaitPass => true
  | _ => false
  end.

(** The passes of the listener that are in flight. *)
Definition passesInFlight (m : Machine) : nat :=
  List.length (filter isAwaitPass (tasks m)).

(** No activation of [processFromFileName] is suspended. *)
Definition noWatchInProgress (m : Machine) : bool :=
  forallb isAwaitPass (tasks m).

(** The outcomes that come with a run of lines 63-64: an [unwatch()] of
    the owner, or the [unwatch()] of line 170 before the listener
    rethrows. *)
Definition isDetach (o : Outcome) : bool :=
  match o with
  | UnwatchResolved _ => true
  | ListenerRejected _ => true
  | _ => false
  end.

Definition detaches (m : Machine) : nat :=
  List.length (filter isDetach (outcomes m)).

Definition watching (m : Machine) : nat :=
  match watcher (this m) with
  | Some _ => 1%nat
  | None => 0%nat
  end.

(** From [m] to [m'] every watch attached is accounted for: the session
    holds it, or a detachment came with it. *)
Definition accounted (m m' : Machine) : Prop :=
  (attached m' + watching m + detaches m <=
   attached m + watching m' + detaches m')%nat.

(** The reading flag and the queue counter agree with the passes of the
    listener in flight. *)
Definition listenerConsistent (m : Machine) : Prop :=
  0 <= internalQueue (this m) /\
  (passesInFlight m <= 1)%nat /\
  (passesInFlight m = 1%nat ->
   isReading (this m) = true /\ 1 <= internalQueue (this m)) /\
  (isReading (this m) = false ->
   passesInFlight m = 0%nat /\ internalQueue (this m) = 0).

(** No event is a call of [watch]. *)
Definition isCallWatch (e : Event) : bool :=
  match e with
  | CallWatch _ => true
  | _ => false
  end.

(** The streams of a file system deliver bytes below 128 only. *)
Definition asciiStreams (fs : FileSystem) : Prop :=
  forall start end_ : Z,
    Forall (fun item => asciiOnly item = true)
           (items (createReadStream fs start end_)).

(** The pass events of [events] run against such file systems. *)
Definition asciiEvent (e : Event) : Prop :=
  match e with
  | PassSettles _ fs => asciiStreams fs
  | _ => True
  end.

(** The cursor line 50 stores for [watch({cursor})]. *)
Definition startCursor (cursorOption : option Z) (m : Machine) : Z :=
  match cursorOption with
  | Some c => c
  | None => cursor (this m)
  end.

(** One call of [watch] on a session at rest, run to the point where its
    promise resolves, nothing else happening meanwhile: the three ways
    through [processFromFileName] that reach line 146. *)
Inductive WatchCompletes (EOL : string) (m : Machine) : list Event -> Prop :=
| NothingToRead (c : option Z) (stats : Stats) :
    size stats <= startCursor c m ->
    WatchCompletes EOL m [CallWatch c; StatSettles 0 (Ok stats)]
| CaughtUp (c : option Z) (stats : Stats) (fs : FileSystem) :
    startCursor c m < size stats ->
    snd (streamFileFromCursor EOL fs (setCursor (startCursor c m) (this m)))
      = None ->
    WatchCompletes EOL m
      [CallWatch c; StatSettles 0 (Ok stats); PassSettles 0 fs]
| Created (c : option Z) (err : Error) :
    code err = Some "ENOENT" ->
    WatchCompletes EOL m
      [CallWatch c; StatSettles 0 (Throw err);
       DirectoryWatcherSettles 0 (Ok tt)].

(** What a writer appends for [lines]: each line followed by [EOL]. *)
Definition terminated (EOL : string) (lines : list string) : string :=
  fold_right (fun line rest => line ++ EOL ++ rest) EmptyString lines.

End Accounting.

(** * Properties *)

Import Js Fs Session Scenario.

(** ** Strings *)

Lemma prefix_refl (s : string) : prefix s s = true.
Proof.
  induction s as [|c s IH]; simpl; [reflexivity|].
  destruct (ascii_dec c c) as [_|H]; [exact IH | now elim H].
Qed.

Lemma endsWith_includes (s sep : string) :
  endsWith s sep = true -> includes s sep = true.
Proof.
  induction s as [|c s IH]; cbn [endsWith includes]; intros H.
  - destruct sep; [reflexivity | discriminate H].
  - apply orb_true_iff in H. destruct H as [H|H].
    + apply String.eqb_eq in H. subst sep. now rewrite prefix_refl.
    + apply IH in H. rewrite H. apply orb_true_r.
Qed.

Lemma split_without_separator (s sep : string) :
  includes s sep = false -> split s sep = [s].
Proof.
  unfold split. induction s as [|c s IH]; intros H; [reflexivity|].
  cbn [includes] in H. apply orb_false_iff in H. destruct H as [Hp Hi].
  cbn [splitFrom]. rewrite Hp, (IH Hi). reflexivity.
Qed.

Lemma allWhiteSpace_append (a b : string) :
  allWhiteSpace (a ++ b) = allWhiteSpace a && allWhiteSpace b.
Proof.
  unfold allWhiteSpace. induction a as [|c a IH]; simpl; [reflexivity|].
  rewrite IH. apply andb_assoc.
Qed.

Lemma trimEnd_empty (s : string) : trimEnd s = "" -> allWhiteSpace s = true.
Proof.
  unfold allWhiteSpace. induction s as [|c s IH]; simpl; [reflexivity|].
  destruct (isWhiteSpace c); simpl; [|discriminate].
  destruct (trimEnd s =? "")%string eqn:E; [|discriminate].
  intros _. apply IH. now apply String.eqb_eq.
Qed.

Lemma trimStart_white (s : string) :
  allWhiteSpace (trimStart s) = true -> allWhiteSpace s = true.
Proof.
  unfold allWhiteSpace. induction s as [|c s IH]; simpl; [reflexivity|].
  destruct (isWhiteSpace c) eqn:E; simpl; [exact IH|].
  now rewrite E.
Qed.

Lemma trim_empty (s : string) : trim s = "" -> allWhiteSpace s = true.
Proof.
  unfold trim. intros H. now apply trimStart_white, trimEnd_empty.
Qed.

Lemma undefined_not_blank (tail : string) :
  notBlank (tail ++ "undefined") = true.
Proof.
  unfold notBlank, truthy. apply negb_true_iff, String.eqb_neq. intros H.
  apply trim_empty in H. rewrite allWhiteSpace_append in H.
  apply andb_true_iff in H. destruct H as [_ H]. discriminate H.
Qed.

(** ** The line splitter *)

Lemma processChunk_without_separator (EOL tail stringChunk : string) :
  includes stringChunk EOL = false ->
  Splitter.processChunk EOL tail stringChunk =
    ([tail ++ "undefined"], stringChunk).
Proof.
  intros Habsent. unfold Splitter.processChunk.
  destruct (endsWith stringChunk EOL) eqn:E.
  - apply endsWith_includes in E. congruence.
  - rewrite (split_without_separator _ _ Habsent).
    cbn [negb pop rev app setFirst first interpolate filter].
    now rewrite undefined_not_blank.
Qed.

Lemma processChunks_app (EOL tail : string) (pre rest : list string) :
  Splitter.processChunks EOL tail (pre ++ rest) =
    ((fst (Splitter.processChunks EOL tail pre) ++
      fst (Splitter.processChunks EOL
             (snd (Splitter.processChunks EOL tail pre)) rest))%list,
     snd (Splitter.processChunks EOL
            (snd (Splitter.processChunks EOL tail pre)) rest)).
Proof.
  revert tail. induction pre as [|item pre IH]; intros tail.
  - cbn. now destruct (Splitter.processChunks EOL tail rest).
  - cbn [app Splitter.processChunks].
    destruct (Splitter.processChunk EOL tail item) as [lines tail'].
    rewrite (IH tail').
    destruct (Splitter.processChunks EOL tail' pre) as [lines' tail''].
    cbn [fst snd]. now rewrite app_assoc.
Qed.

(** C10. When, during a read pass, the stream delivers a chunk in which
    the separator does not occur, the chunk is not merely held back.
    With [tail] the fragment carried from the chunks before it, the loop
    body emits exactly one line for it, [tail] followed by the text
    "undefined" (never blank, so the filter lets it through), and
    carries the chunk itself; so the pass emits the lines of the chunks
    before, then that line, then what the next chunk gives with the
    whole chunk as its carried fragment. *)
Theorem chunk_without_separator_emits_undefined
  (EOL : string) (fs : FileSystem) (t : TailCat) (stats : Stats)
  (pre post : list string) (stringChunk : string)
  (Hstat : stat fs = Ok stats)
  (Hsize : 0 < size stats)
  (Hnews : cursor t < size stats)
  (Hitems : items (createReadStream fs (cursor t) (size stats)) =
            (pre ++ stringChunk :: post)%list)
  (Habsent : includes stringChunk EOL = false) :
  let tail := snd (Splitter.processChunks EOL "" pre) in
  Splitter.processChunk EOL tail stringChunk =
    (filter notBlank [tail ++ "undefined"], stringChunk) /\
  filter notBlank [tail ++ "undefined"] = [tail ++ "undefined"] /\
  snd (fst (streamFileFromCursor EOL fs t)) =
    (fst (Splitter.processChunks EOL "" pre) ++
     (tail ++ "undefined")%string ::
     match post with
     | [] => []
     | next :: post' =>
         fst (Splitter.processChunk EOL stringChunk next) ++
         fst (Splitter.processChunks EOL
                (snd (Splitter.processChunk EOL stringChunk next)) post')
     end)%list.
Proof.
  cbv zeta.
  assert (F : forall tail, filter notBlank [tail ++ "undefined"]
                           = [tail ++ "undefined"]).
  { intros tail. cbn [filter]. now rewrite undefined_not_blank. }
  split; [|split].
  - rewrite F. now apply processChunk_without_separator.
  - apply F.
  - unfold streamFileFromCursor. rewrite Hstat.
    destruct (size stats <=? 0) eqn:E1; [apply Z.leb_le in E1; lia|].
    destruct (cursor t >=? size stats) eqn:E2;
      [rewrite Z.geb_leb in E2; apply Z.leb_le in E2; lia|].
    rewrite Hitems, processChunks_app.
    cbn [Splitter.processChunks].
    rewrite (processChunk_without_separator _ _ _ Habsent).
    assert (R : fst (Splitter.processChunks EOL stringChunk post) =
      match post with
      | [] => []
      | next :: post' =>
          (fst (Splitter.processChunk EOL stringChunk next) ++
           fst (Splitter.processChunks EOL
                  (snd (Splitter.processChunk EOL stringChunk next)) post'))%list
      end).
    { destruct post as [|next post']; [reflexivity|].
      cbn [Splitter.processChunks].
      destruct (Splitter.processChunk EOL stringChunk next) as [l1 t1].
      cbn [fst snd].
      now destruct (Splitter.processChunks EOL t1 post'). }
    rewrite <- R.
    destruct (Splitter.processChunks EOL stringChunk post) as [l2 t2].
    destruct (Splitter.processChunks EOL "" pre) as [l0 t0].
    cbn [fst snd]. now destruct (failure _).
Qed.

Lemma chunk_without_separator_emits_undefined_witness :
  let fs := {| stat := Ok {| size := 4; isFile := fun _ => true |};
               createReadStream := fun _ _ =>
                 {| items := ["ba"; "r" ++ LF]; failure := None |} |} in
  let t := this (fresh "app.log") in
  streamFileFromCursor LF fs t = (setCursor 4 t, ["undefined"; "bar"], None) /\
  Splitter.processChunk LF "" "ba" = (filter notBlank ["undefined"], "ba") /\
  filter notBlank ["undefined"] = ["undefined"] /\
  snd (fst (streamFileFromCursor LF fs t)) =
    ([] ++ "undefined" ::
     fst (Splitter.processChunk LF "ba" ("r" ++ LF)) ++
     fst (Splitter.processChunks LF
            (snd (Splitter.processChunk LF "ba" ("r" ++ LF))) []))%list.
Proof.
  split; [reflexivity|].
  apply (chunk_without_separator_emits_undefined LF
           {| stat := Ok {| size := 4; isFile := fun _ => true |};
              createReadStream := fun _ _ =>
                {| items := ["ba"; "r" ++ LF]; failure := None |} |}
           (this (fresh "app.log")) {| size := 4; isFile := fun _ => true |}
           [] ["r" ++ LF] "ba"); reflexivity.
Defined.

(** ** The splitter on chunks that hold separators *)

Lemma append_empty_r (s : string) : s ++ "" = s.
Proof. induction s as [|c s IH]; cbn; [reflexivity | now rewrite IH]. Qed.

Lemma append_assoc (a b c : string) : (a ++ b) ++ c = a ++ (b ++ c).
Proof. induction a as [|x a IH]; cbn; [reflexivity | now rewrite IH]. Qed.

Lemma last_app_nonempty {A : Type} (l l' : list A) (d : A) :
  l' <> [] -> last (l ++ l') d = last l' d.
Proof.
  intros H. destruct (exists_last H) as (r & x & ->).
  now rewrite app_assoc, !last_last.
Qed.

Lemma removelast_cons {A : Type} (x : A) (l : list A) :
  l <> [] -> removelast (x :: l) = x :: removelast l.
Proof. destruct l; [intros H; now elim H | reflexivity]. Qed.

Lemma last_cons {A : Type} (x d : A) (l : list A) :
  l <> [] -> last (x :: l) d = last l d.
Proof. destruct l; [intros H; now elim H | reflexivity]. Qed.

Lemma pop_last (l : list string) :
  l <> [] -> pop l = (Some (last l ""), removelast l).
Proof.
  intros H. destruct (exists_last H) as (r & x & ->).
  unfold pop. rewrite rev_app_distr. cbn.
  now rewrite rev_involutive, last_last, removelast_last.
Qed.

(** *** A separator of one character, as on POSIX hosts *)
Section OneCharacterSeparator.

Variable ch : ascii.
Local Abbreviation sep := (String ch EmptyString).

Lemma split_cons (c : ascii) (s : string) :
  split (String c s) sep =
    if Ascii.eqb ch c then "" :: split s sep
    else match split s sep with
         | seg :: rest => String c seg :: rest
         | [] => [String c ""]
         end.
Proof.
  unfold split. cbn [splitFrom prefix String.length Nat.pred].
  destruct (ascii_dec ch c) as [->|N].
  - rewrite Ascii.eqb_refl. now destruct s.
  - apply Ascii.eqb_neq in N. now rewrite N.
Qed.

Lemma split_not_nil (s : string) : split s sep <> [].
Proof.
  induction s as [|c s IH]; [discriminate|].
  rewrite split_cons. destruct (Ascii.eqb ch c); [discriminate|].
  destruct (split s sep); discriminate.
Qed.

Lemma split_append (a b : string) :
  split (a ++ b) sep =
    (removelast (split a sep) ++
     (last (split a sep) "" ++ hd "" (split b sep))%string :: tl (split b sep))%list.
Proof.
  induction a as [|c a IH].
  - change ("" ++ b) with b. pose proof (split_not_nil b) as N.
    change (split "" sep) with [""]. cbn [removelast last app].
    destruct (split b sep); [now elim N | reflexivity].
  - change (String c a ++ b) with (String c (a ++ b)).
    rewrite !split_cons, IH.
    pose proof (split_not_nil a) as N.
    destruct (Ascii.eqb ch c).
    + destruct (split a sep) as [|s0 r]; [now elim N|]. reflexivity.
    + destruct (split a sep) as [|s0 [|s1 r]]; [now elim N| |]; reflexivity.
Qed.

Lemma includes_cons (c : ascii) (s : string) :
  includes (String c s) sep = Ascii.eqb ch c || includes s sep.
Proof.
  cbn [includes prefix].
  destruct (ascii_dec ch c) as [->|N].
  - rewrite Ascii.eqb_refl. now destruct s.
  - apply Ascii.eqb_neq in N. now rewrite N.
Qed.

Lemma segments_without_separator (s seg : string) :
  In seg (split s sep) -> includes seg sep = false.
Proof.
  revert seg. induction s as [|c s IH]; intros seg H.
  - destruct H as [<-|[]]. reflexivity.
  - rewrite split_cons in H. destruct (Ascii.eqb ch c) eqn:E.
    + destruct H as [<-|H]; [reflexivity | now apply IH].
    + pose proof (split_not_nil s) as N.
      destruct (split s sep) as [|s0 r]; [now elim N|].
      destruct H as [<-|H].
      * rewrite includes_cons, E. apply IH. now left.
      * apply IH. now right.
Qed.

Lemma split_with_separator (s : string) :
  includes s sep = true ->
  exists s0 s1 r, split s sep = s0 :: s1 :: r.
Proof.
  induction s as [|c s IH]; intros H; [discriminate H|].
  rewrite includes_cons in H. rewrite split_cons.
  pose proof (split_not_nil s) as N.
  destruct (Ascii.eqb ch c).
  - destruct (split s sep) as [|s0 r]; [now elim N|]. now eexists _, _, _.
  - destruct (IH H) as (s0 & s1 & r & ->). now eexists _, _, _.
Qed.

Lemma endsWith_last_empty (s : string) :
  endsWith s sep = true -> last (split s sep) "" = "".
Proof.
  induction s as [|c s IH]; intros H; [discriminate H|].
  cbn [endsWith] in H. apply orb_true_iff in H. destruct H as [H|H].
  - apply String.eqb_eq in H. injection H as -> ->.
    rewrite split_cons, Ascii.eqb_refl. reflexivity.
  - rewrite split_cons.
    destruct (split_with_separator s (endsWith_includes _ _ H))
      as (s0 & s1 & r & E).
    specialize (IH H). rewrite E in *.
    destruct (Ascii.eqb ch c); exact IH.
Qed.

Lemma processChunk_with_separator (tail stringChunk : string) :
  includes tail sep = false ->
  includes stringChunk sep = true ->
  Splitter.processChunk sep tail stringChunk =
    (filter notBlank (Splitter.completeLines sep (tail ++ stringChunk)),
     Splitter.unterminated sep (tail ++ stringChunk)).
Proof.
  intros Ht Hc.
  unfold Splitter.completeLines, Splitter.unterminated.
  rewrite split_append, (split_without_separator _ _ Ht).
  destruct (split_with_separator _ Hc) as (s0 & s1 & r & E).
  unfold Splitter.processChunk.
  assert (N : s1 :: r <> []) by discriminate.
  remember (s1 :: r) as more eqn:M.
  change (removelast [tail]) with (@nil string).
  change (last [tail] "") with tail.
  destruct (endsWith stringChunk sep) eqn:W.
  - apply endsWith_last_empty in W. rewrite E in *.
    rewrite (last_cons _ _ _ N) in W.
    cbn [negb app hd tl setFirst first interpolate].
    rewrite (removelast_cons _ _ N), (last_cons _ _ _ N), W.
    rewrite (app_removelast_last "" N) at 1. rewrite W.
    change ((tail ++ s0) :: (removelast more ++ [""])%list)
      with (((tail ++ s0)%string :: removelast more) ++ [""])%list.
    rewrite filter_app. cbn [filter]. change (notBlank "") with false.
    now rewrite app_nil_r.
  - rewrite E. cbn [negb]. rewrite pop_last by discriminate.
    rewrite (removelast_cons _ _ N), (last_cons _ _ _ N).
    cbn [app hd tl setFirst first interpolate].
    now rewrite (removelast_cons _ _ N), (last_cons _ _ _ N).
Qed.

Lemma unterminated_without_separator (bytes : string) :
  includes (Splitter.unterminated sep bytes) sep = false.
Proof.
  apply (segments_without_separator bytes).
  unfold Splitter.unterminated.
  pose proof (split_not_nil bytes) as N.
  destruct (exists_last N) as (r & x & ->).
  rewrite last_last. apply in_or_app. right. now left.
Qed.

Lemma split_append_unterminated (a b : string) :
  split (a ++ b) sep =
    (Splitter.completeLines sep a ++
     split (Splitter.unterminated sep a ++ b)%string sep)%list.
Proof.
  unfold Splitter.completeLines.
  rewrite (split_append (Splitter.unterminated sep a) b).
  rewrite (split_without_separator _ _ (unterminated_without_separator a)).
  apply split_append.
Qed.

Lemma completeLines_append (a b : string) :
  Splitter.completeLines sep (a ++ b) =
    (Splitter.completeLines sep a ++
     Splitter.completeLines sep (Splitter.unterminated sep a ++ b)%string)%list.
Proof.
  unfold Splitter.completeLines at 1. rewrite split_append_unterminated.
  apply removelast_app, split_not_nil.
Qed.

Lemma unterminated_append (a b : string) :
  Splitter.unterminated sep (a ++ b) =
    Splitter.unterminated sep (Splitter.unterminated sep a ++ b).
Proof.
  unfold Splitter.unterminated at 1. rewrite split_append_unterminated.
  apply last_app_nonempty, split_not_nil.
Qed.

Lemma processChunks_with_separators (items : list string) (tail : string) :
  includes tail sep = false ->
  Forall (fun item => includes item sep = true) items ->
  Splitter.processChunks sep tail items =
    (filter notBlank (Splitter.completeLines sep (tail ++ Splitter.joined items)),
     Splitter.unterminated sep (tail ++ Splitter.joined items)).
Proof.
  revert tail. induction items as [|item items IH]; intros tail Ht F.
  - cbn [Splitter.processChunks Splitter.joined fold_right].
    rewrite append_empty_r.
    unfold Splitter.completeLines, Splitter.unterminated.
    now rewrite (split_without_separator _ _ Ht).
  - inversion F as [|x l Hitem F']. subst x l.
    cbn [Splitter.processChunks Splitter.joined fold_right].
    rewrite (processChunk_with_separator _ _ Ht Hitem).
    fold (Splitter.joined items).
    rewrite (IH _ (unterminated_without_separator _) F').
    rewrite <- append_assoc.
    rewrite (completeLines_append (tail ++ item)).
    rewrite (unterminated_append (tail ++ item)).
    now rewrite filter_app.
Qed.

(** X1. When every chunk of the stream holds a separator and only bytes
    below 128, a pass emits the non-blank complete lines of the bytes it
    read, in order, and moves the cursor to the size observed; the
    unterminated rest is not emitted. *)
Theorem pass_emits_complete_lines
  (fs : FileSystem) (t : TailCat) (stats : Stats)
  (Hstat : stat fs = Ok stats)
  (Hnews : cursor t < size stats)
  (Hsize : 0 < size stats)
  (Hread : failure (createReadStream fs (cursor t) (size stats)) = None)
  (Hseparators :
     Forall (fun item => includes item sep = true)
            (items (createReadStream fs (cursor t) (size stats))))
  (Hascii :
     Forall (fun item => asciiOnly item = true)
            (items (createReadStream fs (cursor t) (size stats)))) :
  streamFileFromCursor sep fs t =
    (setCursor (size stats) t,
     filter notBlank
       (Splitter.completeLines sep
          (Splitter.joined (items (createReadStream fs (cursor t) (size stats))))),
     None).
Proof.
  unfold streamFileFromCursor. rewrite Hstat.
  destruct (size stats <=? 0)%Z eqn:E1; [apply Z.leb_le in E1; lia|].
  destruct (cursor t >=? size stats)%Z eqn:E2;
    [rewrite Z.geb_leb in E2; apply Z.leb_le in E2; lia|].
  rewrite (processChunks_with_separators _ "" eq_refl Hseparators), Hread.
  reflexivity.
Qed.

End OneCharacterSeparator.

Lemma pass_emits_complete_lines_example :
  let fs := regular ("foo_0" ++ LF ++ "  " ++ LF ++ "foo_1" ++ LF ++ "foo") in
  streamFileFromCursor LF fs (this (fresh "app.log")) =
    (setCursor 18 (this (fresh "app.log")), ["foo_0"; "foo_1"], None).
Proof.
  apply (pass_emits_complete_lines "010"%char
           (regular ("foo_0" ++ LF ++ "  " ++ LF ++ "foo_1" ++ LF ++ "foo"))
           (this (fresh "app.log"))
           {| size := 18; isFile := fun _ => true |});
    [reflexivity | reflexivity | reflexivity | reflexivity | |];
    repeat constructor.
Defined.

(** ** Construction *)

(** C9, as the code has it. Constructing a session without a path throws
    synchronously; every string is accepted as the path, the empty string
    included: only [undefined] is rejected. *)
Theorem constructor_rejects_only_undefined :
  constructor None = Throw NoFileName /\
  forall name : string,
    constructor (Some name) =
      Ok {| cursor := 0; isReading := false; watcher := None;
            filePath := name; internalQueue := 0 |}.
Proof. split; [reflexivity | intros name; reflexivity]. Qed.

(** C9 fails as stated: the empty path is not rejected. *)
Lemma constructor_accepts_empty_path :
  (exists t, constructor (Some "") = Ok t /\ filePath t = "") /\
  (forall err, constructor (Some "") <> Throw err).
Proof.
  split; [eexists; split; reflexivity | intros err H; discriminate H].
Qed.

(** ** The read pass *)

Lemma pass_keeps_fields (EOL : string) (fs : FileSystem) (t t' : TailCat)
  (lines : list string) (thrown : option Error) :
  streamFileFromCursor EOL fs t = (t', lines, thrown) ->
  isReading t' = isReading t /\ watcher t' = watcher t /\
  internalQueue t' = internalQueue t /\ filePath t' = filePath t.
Proof.
  unfold streamFileFromCursor.
  destruct (stat fs) as [stats|err]; [|intros [= <- _ _]; auto].
  destruct (size stats <=? 0); [intros [= <- _ _]; auto|].
  destruct (cursor t >=? size stats); [intros [= <- _ _]; auto|].
  destruct (Splitter.processChunks _ _ _) as [ls tl].
  destruct (failure _); intros [= <- _ _]; auto.
Qed.

Lemma pass_without_news (EOL : string) (fs : FileSystem) (t : TailCat)
  (stats : Stats) :
  stat fs = Ok stats -> size stats <= cursor t ->
  streamFileFromCursor EOL fs t = (t, [], None).
Proof.
  intros Hstat Hle. unfold streamFileFromCursor. rewrite Hstat.
  destruct (size stats <=? 0); [reflexivity|].
  destruct (cursor t >=? size stats) eqn:E; [reflexivity|].
  rewrite Z.geb_leb in E. apply Z.leb_gt in E. lia.
Qed.

(** ** The cursor *)

(** C7, as the code has it. When the metadata query of [watch()] observes
    a size below the stored cursor, the cursor is clamped down to that
    size before the watch is attached; a read pass whose metadata query
    observes a size at or below the cursor of the session returns
    without reading and leaves the cursor where it is. *)
Theorem cursor_clamped_by_watch_not_by_pass
  (EOL : string) (m : Machine) (i : nat) (fs : FileSystem) (stats : Stats)
  (t : TailCat) (passFs : FileSystem) (passStats : Stats)
  (Htask : nth_error (tasks m) i = Some AwaitStat)
  (Hstat : stat fs = Ok stats)
  (Hbelow : size stats < cursor (this m))
  (Hpass : stat passFs = Ok passStats)
  (Hatmost : size passStats <= cursor t) :
  cursor (this (step EOL m (StatSettles i (stat fs)))) = size stats /\
  streamFileFromCursor EOL passFs t = (t, [], None).
Proof.
  split.
  - cbn [step]. rewrite Htask, Hstat.
    unfold afterStat, truthyMethod. cbn [negb].
    unfold afterTry. cbn [removeTask this ltNumber].
    destruct (cursor (this m) <? size stats) eqn:E;
      [apply Z.ltb_lt in E; lia|].
    unfold afterCatchUp. cbn [removeTask this gtNumber].
    destruct (cursor (this m) >? size stats) eqn:G.
    + unfold attach, withThis, setCursor. cbn.
      destruct (watcher (this m)); reflexivity.
    + rewrite Z.gtb_ltb in G. apply Z.ltb_ge in G. lia.
  - now apply pass_without_news with (stats := passStats).
Qed.

Lemma cursor_clamped_by_watch_not_by_pass_witness :
  let m := run LF (fresh "app.log") [CallWatch (Some 10)] in
  let fs := regular "01234" in
  let watching :=
    run LF (fresh "app.log")
      [CallWatch (Some 5); StatSettles 0 (stat (regular "01234"))] in
  cursor (this m) = 10 /\ cursor (this watching) = 5 /\
  cursor (this (step LF m (StatSettles 0 (stat fs)))) = 5 /\
  streamFileFromCursor LF fs (this watching) = (this watching, [], None).
Proof.
  split; [reflexivity|]. split; [reflexivity|].
  apply (cursor_clamped_by_watch_not_by_pass LF
           (run LF (fresh "app.log") [CallWatch (Some 10)]) 0 (regular "01234")
           {| size := 5; isFile := fun _ => true |}
           (this (run LF (fresh "app.log")
                    [CallWatch (Some 5); StatSettles 0 (stat (regular "01234"))]))
           (regular "01234") {| size := 5; isFile := fun _ => true |});
    reflexivity.
Defined.

(** C7 fails as stated: a session watching a file of ten bytes, cursor at
    10, is notified after the file was cut down to five bytes.  The pass
    observes size 5 and returns; the session is idle again and its cursor
    is still 10, above the size observed. *)
Lemma cursor_stays_above_observed_size :
  let watching :=
    run LF (fresh "app.log")
      [CallWatch (Some 10); StatSettles 0 (stat (regular "0123456789"))] in
  let cut := regular "01234" in
  let m := run LF watching [Notify 0%nat change; PassSettles 0 cut] in
  watcher (this watching) = Some 0%nat /\
  stat cut = Ok {| size := 5; isFile := fun _ => true |} /\
  tasks m = [] /\ isReading (this m) = false /\
  cursor (this m) = 10 /\ ~ cursor (this m) <= 5.
Proof.
  cbv zeta. repeat split; try reflexivity.
  vm_compute. intros H. now apply H.
Qed.

(** ** First watch *)

(** C3, as the code has it. On a session just constructed, [watch()]
    without a cursor keeps the cursor at its initial value 0; when the
    file has a positive size the catch-up pass inside [watch()] opens the
    stream at byte 0, emits what it reads, and leaves the cursor at the
    size before the promise resolves. *)
Theorem first_watch_starts_at_byte_zero
  (EOL name : string) (t : TailCat) (fs : FileSystem) (stats : Stats)
  (Hnew : constructor (Some name) = Ok t)
  (Hstat : stat fs = Ok stats)
  (Hsize : 0 < size stats)
  (Hread : failure (createReadStream fs 0 (size stats)) = None) :
  let called := run EOL (start t) [CallWatch None; StatSettles 0 (stat fs)] in
  let resolved := step EOL called (PassSettles 0 fs) in
  cursor (this called) = 0 /\
  tasks called = [AwaitCatchUp (Some (size stats))] /\
  emitted called = [] /\
  emitted resolved =
    fst (Splitter.processChunks EOL "" (items (createReadStream fs 0 (size stats)))) /\
  cursor (this resolved) = size stats /\
  outcomes resolved = [WatchResolved].
Proof.
  injection Hnew as <-.
  assert (Hcalled :
    run EOL (start {| cursor := 0; isReading := false; watcher := None;
                      filePath := name; internalQueue := 0 |})
        [CallWatch None; StatSettles 0 (stat fs)] =
    {| this := {| cursor := 0; isReading := false; watcher := None;
                  filePath := name; internalQueue := 0 |};
       tasks := [AwaitCatchUp (Some (size stats))]; opened := [];
       attached := 0%nat; emitted := []; outcomes := []; passes := 0%nat |}).
  { rewrite Hstat. cbn. unfold afterTry. cbn.
    destruct (0 <? size stats) eqn:E; [reflexivity|].
    apply Z.ltb_ge in E. lia. }
  cbv zeta. rewrite Hcalled. cbn [this cursor tasks emitted].
  repeat split.
  all: cbn [step tasks nth_error]; unfold afterCatchUpPass, streamFileFromCursor;
    cbn [removeTask this cursor]; rewrite Hstat.
  all: destruct (size stats <=? 0) eqn:E1; [apply Z.leb_le in E1; lia|].
  all: destruct (0 >=? size stats) eqn:E2;
    [rewrite Z.geb_leb in E2; apply Z.leb_le in E2; lia|].
  all: destruct (Splitter.processChunks _ _ _) as [ls tl]; rewrite Hread.
  all: unfold afterCatchUp; cbn.
  all: rewrite Z.gtb_ltb, Z.ltb_irrefl; reflexivity.
Qed.

Lemma first_watch_starts_at_byte_zero_witness :
  let fs := regular ("old" ++ LF) in
  let called := run LF (fresh "app.log") [CallWatch None; StatSettles 0 (stat fs)] in
  let resolved := step LF called (PassSettles 0 fs) in
  cursor (this called) = 0 /\
  tasks called = [AwaitCatchUp (Some 4)] /\
  emitted called = [] /\
  emitted resolved =
    fst (Splitter.processChunks LF "" (items (createReadStream fs 0 4))) /\
  cursor (this resolved) = 4 /\
  outcomes resolved = [WatchResolved].
Proof.
  apply (first_watch_starts_at_byte_zero LF "app.log" _ (regular ("old" ++ LF))
           {| size := 4; isFile := fun _ => true |});
    [reflexivity | reflexivity | reflexivity | reflexivity].
Defined.

(** C3 fails as stated: a new session on a file that already holds the
    line "old" calls [watch()] without a cursor.  The cursor is 0, not the
    size 4, and the old line is emitted before [watch()] resolves. *)
Lemma first_watch_emits_existing_content :
  let fs := regular ("old" ++ LF) in
  exists t, constructor (Some "app.log") = Ok t /\
  let called := run LF (start t) [CallWatch None; StatSettles 0 (stat fs)] in
  let resolved := step LF called (PassSettles 0 fs) in
  stat fs = Ok {| size := 4; isFile := fun _ => true |} /\
  cursor (this called) = 0 /\ cursor (this called) <> 4 /\
  emitted resolved = ["old"] /\ emitted resolved <> [] /\
  outcomes resolved = [WatchResolved].
Proof.
  eexists. split; [reflexivity|].
  cbv zeta. repeat split; try reflexivity; vm_compute; discriminate.
Qed.

(** ** Deletion of the watched file *)

Lemma pass_thrown_keeps_session (EOL : string) (fs : FileSystem)
  (t t' : TailCat) (lines : list string) (err : Error) :
  streamFileFromCursor EOL fs t = (t', lines, Some err) -> t' = t.
Proof.
  unfold streamFileFromCursor.
  destruct (stat fs) as [stats|e]; [|now intros [= <- _ _]].
  destruct (size stats <=? 0); [discriminate|].
  destruct (cursor t >=? size stats); [discriminate|].
  destruct (Splitter.processChunks _ _ _) as [ls tl].
  destruct (failure _); [now intros [= <- _ _] | discriminate].
Qed.

Lemma code_ENOENT (err : Error) :
  code err = Some "ENOENT" -> notENOENT err = false.
Proof. unfold notENOENT. now intros ->. Qed.

(** C5. When the pass of the listener fails with a file-not-found error
    (the watched file was deleted), nothing is reported to anyone: the
    queue counter is set to 0, the reading flag is cleared, the watch
    handle stays in place and open; an [unwatch()] that follows resolves
    with the cursor and closes the handle. *)
Theorem deletion_while_watching_is_absorbed
  (EOL : string) (m : Machine) (i : nat) (fs : FileSystem) (err : Error)
  (Htask : nth_error (tasks m) i = Some AwaitPass)
  (Hthrown : snd (streamFileFromCursor EOL fs (this m)) = Some err)
  (Hcode : code err = Some "ENOENT") :
  let m' := step EOL m (PassSettles i fs) in
  let m'' := step EOL m' CallUnwatch in
  outcomes m' = outcomes m /\
  internalQueue (this m') = 0 /\
  isReading (this m') = false /\
  watcher (this m') = watcher (this m) /\
  opened m' = opened m /\
  outcomes m'' = (outcomes m ++ [UnwatchResolved (cursor (this m))])%list /\
  watcher (this m'') = None /\
  (forall w, watcher (this m) = Some w -> ~ In w (opened m'')).
Proof.
  cbv zeta. cbn [step]. rewrite Htask. unfold afterPass.
  cbn [removeTask this].
  destruct (streamFileFromCursor EOL fs (this m)) as [[t' lines] thrown] eqn:E.
  cbn [snd] in Hthrown. subst thrown.
  apply pass_thrown_keeps_session in E. subst t'.
  rewrite (code_ENOENT _ Hcode).
  unfold loopTest, unwatch, unwatchBody. cbn.
  destruct m as [[c r w p q] ts op at_ em oc ps]. cbn.
  repeat match goal with |- _ /\ _ => split end;
    try reflexivity; try (destruct w; reflexivity).
  intros w' ->. cbn. intros Hin. apply filter_In in Hin.
  destruct Hin as [_ Hin]. now rewrite Nat.eqb_refl in Hin.
Qed.

Lemma deletion_while_watching_is_absorbed_witness :
  let m := run LF (watchingEmptyFile "app.log")
             [Notify 0%nat change; Notify 0%nat change] in
  let m' := step LF m (PassSettles 0 deleted) in
  let m'' := step LF m' CallUnwatch in
  (tasks m = [AwaitPass] /\ internalQueue (this m) = 2 /\
   watcher (this m) = Some 0%nat) /\
  outcomes m' = outcomes m /\
  internalQueue (this m') = 0 /\
  isReading (this m') = false /\
  watcher (this m') = watcher (this m) /\
  opened m' = opened m /\
  outcomes m'' = (outcomes m ++ [UnwatchResolved (cursor (this m))])%list /\
  watcher (this m'') = None /\
  (forall w, watcher (this m) = Some w -> ~ In w (opened m'')).
Proof.
  split; [repeat split|].
  apply (deletion_while_watching_is_absorbed LF
           (run LF (watchingEmptyFile "app.log")
              [Notify 0%nat change; Notify 0%nat change])
           0 deleted ENOENT);
    reflexivity.
Defined.

(** ** One watch handle *)

Lemma oneHandle_attach (m : Machine) : oneHandle m -> oneHandle (attach m).
Proof.
  unfold oneHandle, attach.
  destruct m as [[c r w p q] ts op at_ em oc ps]. cbn.
  destruct w; cbn; [trivial | now intros ->].
Qed.

Lemma oneHandle_unwatchBody (m : Machine) :
  oneHandle m -> oneHandle (unwatchBody m).
Proof.
  unfold oneHandle, unwatchBody.
  destruct m as [[c r w p q] ts op at_ em oc ps]. cbn.
  destruct w; cbn; intros ->; cbn; [|reflexivity].
  now rewrite Nat.eqb_refl.
Qed.

Lemma oneHandle_same (m m' : Machine) :
  opened m' = opened m -> watcher (this m') = watcher (this m) ->
  oneHandle m -> oneHandle m'.
Proof. unfold oneHandle. now intros -> ->. Qed.

Lemma oneHandle_afterCatchUp (size : option Z) (m : Machine) :
  oneHandle m -> oneHandle (afterCatchUp size m).
Proof.
  intros H. unfold afterCatchUp.
  set (clamped := if gtNumber _ _ then _ else _).
  assert (H' : oneHandle clamped).
  { subst clamped. destruct (gtNumber _ _); [|exact H].
    destruct size; [|exact H]. now apply (oneHandle_same m). }
  apply (oneHandle_same (attach clamped)); [reflexivity | reflexivity |].
  now apply oneHandle_attach.
Qed.

Lemma oneHandle_afterTry (size : option Z) (m : Machine) :
  oneHandle m -> oneHandle (afterTry size m).
Proof.
  intros H. unfold afterTry. destruct (ltNumber _ _).
  - now apply (oneHandle_same m).
  - now apply oneHandle_afterCatchUp.
Qed.

Lemma oneHandle_loopTest (m : Machine) : oneHandle m -> oneHandle (loopTest m).
Proof.
  intros H. unfold loopTest.
  destruct (negb _); now apply (oneHandle_same m).
Qed.

Lemma oneHandle_settled (EOL : string) (fs : FileSystem) (i : nat)
  (m : Machine) (t' : TailCat) (lines : list string) (thrown : option Error) :
  streamFileFromCursor EOL fs (this m) = (t', lines, thrown) ->
  oneHandle m ->
  oneHandle (emit lines (withThis (fun _ => t') (removeTask i m))).
Proof.
  intros E H. apply pass_keeps_fields in E. destruct E as (_ & W & _).
  now apply (oneHandle_same m).
Qed.

Lemma oneHandle_step (EOL : string) (m : Machine) (e : Event) :
  oneHandle m -> oneHandle (step EOL m e).
Proof.
  intros H. destruct e as [c| |i answer|i answer|i fs|w ev]; cbn [step].
  - unfold watch. destruct (watcher (this m)) eqn:W.
    + apply (oneHandle_same m); [reflexivity | reflexivity | exact H].
    + apply (oneHandle_same m); [reflexivity | cbn; now rewrite W | exact H].
  - unfold unwatch. apply (oneHandle_same (unwatchBody m)); try reflexivity.
    now apply oneHandle_unwatchBody.
  - destruct (nth_error (tasks m) i) as [[| | |]|]; try exact H.
    assert (H' : oneHandle (removeTask i m)) by now apply (oneHandle_same m).
    unfold afterStat. destruct answer as [fileData|err].
    + cbn [truthyMethod negb]. now apply oneHandle_afterTry.
    + destruct (notENOENT err); now apply (oneHandle_same (removeTask i m)).
  - destruct (nth_error (tasks m) i) as [[| | |]|]; try exact H.
    assert (H' : oneHandle (removeTask i m)) by now apply (oneHandle_same m).
    unfold afterDirectoryWatcher. destruct answer as [u|err].
    + now apply oneHandle_afterTry.
    + now apply (oneHandle_same (removeTask i m)).
  - destruct (nth_error (tasks m) i) as [[| |size|]|]; try exact H.
    + unfold afterCatchUpPass. change (this (removeTask i m)) with (this m).
      destruct (streamFileFromCursor EOL fs (this m)) as [[t' lines] thrown] eqn:E.
      pose proof (oneHandle_settled _ _ i _ _ _ _ E H) as H'.
      destruct thrown as [err|].
      * revert H'. now apply oneHandle_same.
      * now apply oneHandle_afterCatchUp.
    + unfold afterPass. change (this (removeTask i m)) with (this m).
      destruct (streamFileFromCursor EOL fs (this m)) as [[t' lines] thrown] eqn:E.
      pose proof (oneHandle_settled _ _ i _ _ _ _ E H) as H'.
      destruct thrown as [err|].
      * destruct (notENOENT err).
        -- apply oneHandle_unwatchBody in H'. revert H'. now apply oneHandle_same.
        -- apply oneHandle_loopTest. revert H'. now apply oneHandle_same.
      * apply oneHandle_loopTest. revert H'. now apply oneHandle_same.
  - destruct (existsb _ _); [|exact H].
    unfold listener. destruct ev; [exact H|].
    cbn [withThis this setInternalQueue isReading].
    destruct (isReading (this m)); now apply (oneHandle_same m).
Qed.

Lemma oneHandle_run (EOL : string) (events : list Event) (m : Machine) :
  oneHandle m -> oneHandle (run EOL m events).
Proof.
  unfold run. revert m.
  induction events as [|e events IH]; intros m H; [exact H|].
  cbn [fold_left]. now apply IH, oneHandle_step.
Qed.

Lemma watch_while_watching (EOL : string) (m : Machine) (c : option Z) :
  watcher (this m) <> None ->
  step EOL m (CallWatch c) = settle WatchResolved m.
Proof.
  intros H. cbn [step]. unfold watch.
  destruct (watcher (this m)); [reflexivity | now elim H].
Qed.

Lemma watch_repeated (EOL : string) (cursors : list (option Z)) (m : Machine) :
  watcher (this m) <> None ->
  let again := run EOL m (map CallWatch cursors) in
  this again = this m /\ tasks again = tasks m /\ opened again = opened m /\
  attached again = attached m /\ emitted again = emitted m /\
  outcomes again = (outcomes m ++ repeat WatchResolved (length cursors))%list.
Proof.
  revert m. induction cursors as [|c cursors IH]; intros m H; cbv zeta.
  - cbn. now rewrite app_nil_r.
  - cbn [map run fold_left length repeat].
    rewrite (watch_while_watching EOL m c H).
    destruct (IH (settle WatchResolved m) H) as (H1 & H2 & H3 & H4 & H5 & H6).
    unfold run in *. rewrite H1, H2, H3, H4, H5, H6. cbn.
    now rewrite <- app_assoc.
Qed.

Lemma unwatch_repeated (EOL : string) (n : nat) (m : Machine) :
  watcher (this m) = None ->
  let again := run EOL m (repeat CallUnwatch n) in
  this again = this m /\ tasks again = tasks m /\ opened again = opened m /\
  outcomes again =
    (outcomes m ++ repeat (UnwatchResolved (cursor (this m))) n)%list.
Proof.
  revert m. induction n as [|n IH]; intros m H; cbv zeta.
  - cbn. now rewrite app_nil_r.
  - cbn [repeat run fold_left step].
    assert (E : unwatch m = settle (UnwatchResolved (cursor (this m))) m).
    { unfold unwatch, unwatchBody. rewrite H.
      destruct m as [[c r w p q] ts op at_ em oc ps]. cbn in H. now subst w. }
    rewrite E.
    destruct (IH (settle (UnwatchResolved (cursor (this m))) m) H)
      as (H1 & H2 & H3 & H4).
    unfold run in *. rewrite H1, H2, H3, H4. cbn.
    now rewrite <- app_assoc.
Qed.

Lemma watch_completes_attaches (EOL : string) (m : Machine)
  (completion : list Event) :
  tasks m = [] -> watcher (this m) = None -> opened m = [] ->
  Accounting.WatchCompletes EOL m completion ->
  let watching := run EOL m completion in
  watcher (this watching) = Some (attached m) /\
  opened watching = [attached m] /\
  attached watching = S (attached m) /\
  tasks watching = [] /\
  outcomes watching = (outcomes m ++ [WatchResolved])%list.
Proof.
  intros T W O C. cbv zeta.
  destruct m as [[c0 r w p q] ts op at_ em oc ps].
  cbn in T, W, O. subst ts w op.
  destruct C as [c stats L|c stats fs L S|c err E];
    unfold Accounting.startCursor in *; cbn [this cursor] in *;
    unfold run; cbn [fold_left step]; unfold watch; cbn.
  - unfold afterStat, afterTry. cbn.
    destruct (_ <? size stats) eqn:B; [apply Z.ltb_lt in B; lia|].
    unfold afterCatchUp, attach. cbn.
    destruct (_ >? size stats); cbn; repeat split.
  - unfold afterStat, afterTry. cbn.
    destruct (_ <? size stats) eqn:B; [|apply Z.ltb_ge in B; lia].
    cbn. unfold afterCatchUpPass. cbn.
    unfold setCursor in S. cbn in S.
    destruct (streamFileFromCursor EOL fs _) as [[t' lines] thrown] eqn:P.
    cbn in S. subst thrown.
    apply pass_keeps_fields in P. destruct P as (_ & W' & _).
    cbn in W'. unfold afterCatchUp, attach. cbn.
    destruct (cursor t' >? size stats); cbn; rewrite W'; cbn; rewrite ?W';
      repeat split.
  - unfold afterStat. rewrite (code_ENOENT _ E). cbn.
    unfold afterDirectoryWatcher, afterTry, afterCatchUp, attach. cbn.
    repeat split.
Qed.

(** C6. However the calls, settlements and notifications interleave, at
    most one file watch of the session is open, and it is the one stored
    in [#watcher].  A call of [watch()] on a session at rest that runs
    to its end, by any of the three ways through [processFromFileName],
    attaches exactly one watch, and any number of [watch()] calls that
    follow attach no other.  While the session holds a watch, any number
    of [watch()] calls in a row change nothing: each just resolves.  Any
    number of [unwatch()] calls in a row leave no watch open and all
    resolve with the same cursor. *)
Theorem watch_and_unwatch_are_idempotent
  (EOL name : string) (events completion : list Event)
  (cursors : list (option Z)) (n : nat) :
  let m := run EOL (fresh name) events in
  (length (opened m) <= 1)%nat /\
  oneHandle m /\
  (tasks m = [] -> watcher (this m) = None ->
   Accounting.WatchCompletes EOL m completion ->
   let watching := run EOL m completion in
   let again := run EOL watching (map CallWatch cursors) in
   watcher (this watching) = Some (attached m) /\
   opened watching = [attached m] /\
   attached watching = S (attached m) /\
   this again = this watching /\ opened again = [attached m] /\
   attached again = S (attached m)) /\
  (watcher (this m) <> None ->
   let again := run EOL m (map CallWatch cursors) in
   this again = this m /\ tasks again = tasks m /\ opened again = opened m /\
   attached again = attached m /\ emitted again = emitted m /\
   outcomes again = (outcomes m ++ repeat WatchResolved (length cursors))%list) /\
  (let once := step EOL m CallUnwatch in
   let again := run EOL once (repeat CallUnwatch n) in
   watcher (this once) = None /\ opened once = [] /\
   this again = this once /\ tasks again = tasks once /\ opened again = [] /\
   outcomes again =
     (outcomes m ++ UnwatchResolved (cursor (this m))
        :: repeat (UnwatchResolved (cursor (this m))) n)%list).
Proof.
  cbv zeta.
  assert (H : oneHandle (run EOL (fresh name) events))
    by (apply oneHandle_run; reflexivity).
  set (m := run EOL (fresh name) events) in *.
  split; [|split; [exact H|split; [|split]]].
  - rewrite H. destruct (watcher (this m)); cbn; lia.
  - intros T W C.
    assert (O : opened m = []) by (rewrite H, W; reflexivity).
    destruct (watch_completes_attaches EOL m completion T W O C)
      as (A1 & A2 & A3 & _).
    assert (W' : watcher (this (run EOL m completion)) <> None)
      by (rewrite A1; discriminate).
    destruct (watch_repeated EOL cursors _ W') as (R1 & _ & R3 & R4 & _).
    repeat match goal with |- _ /\ _ => split end; try assumption.
    + now rewrite R3.
    + now rewrite R4.
  - intros W. exact (watch_repeated EOL cursors m W).
  - pose proof (oneHandle_step EOL m CallUnwatch H) as H1.
    assert (W : watcher (this (step EOL m CallUnwatch)) = None)
      by (cbn; unfold unwatchBody; destruct (watcher (this m)); reflexivity).
    assert (O : opened (step EOL m CallUnwatch) = [])
      by (rewrite H1, W; reflexivity).
    destruct (unwatch_repeated EOL n _ W) as (H2 & H3 & H4 & H5).
    repeat match goal with |- _ /\ _ => split end; try assumption.
    + now rewrite H4.
    + rewrite H5. cbn. unfold unwatchBody.
      destruct (watcher (this m)); cbn; now rewrite <- app_assoc.
Qed.

Lemma watch_and_unwatch_are_idempotent_witness :
  let fs := regular ("old" ++ LF) in
  let m := run LF (fresh "app.log") [] in
  let completion :=
    [CallWatch None; StatSettles 0 (stat fs); PassSettles 0 fs] in
  let watching := run LF m completion in
  let again := run LF watching (map CallWatch [None; Some 0]) in
  (emitted watching = ["old"] /\ attached m = 0%nat) /\
  watcher (this watching) = Some (attached m) /\
  opened watching = [attached m] /\
  attached watching = S (attached m) /\
  this again = this watching /\ opened again = [attached m] /\
  attached again = S (attached m).
Proof.
  split; [split; reflexivity|].
  destruct (watch_and_unwatch_are_idempotent LF "app.log" []
              [CallWatch None; StatSettles 0 (stat (regular ("old" ++ LF)));
               PassSettles 0 (regular ("old" ++ LF))]
              [None; Some 0] 2) as (_ & _ & H & _).
  apply H; [reflexivity | reflexivity |].
  apply (Accounting.CaughtUp LF (run LF (fresh "app.log") []) None
           {| size := 4; isFile := fun _ => true |} (regular ("old" ++ LF)));
    reflexivity.
Defined.

(** ** The queue of notifications *)

Lemma notify_open (EOL : string) (m : Machine) (w : FSWatcher) (ev : WatchEvent) :
  In w (opened m) -> step EOL m (Notify w ev) = listener ev m.
Proof.
  intros H. cbn [step].
  assert (E : existsb (Nat.eqb w) (opened m) = true).
  { apply existsb_exists. exists w. split; [exact H | apply Nat.eqb_refl]. }
  now rewrite E.
Qed.

Lemma notifications_while_reading (EOL : string) (w : FSWatcher) (n : nat)
  (m : Machine) :
  isReading (this m) = true -> In w (opened m) ->
  let burst := run EOL m (repeat (Notify w change) n) in
  passes burst = passes m /\ tasks burst = tasks m /\
  isReading (this burst) = true /\
  internalQueue (this burst) = internalQueue (this m) + Z.of_nat n.
Proof.
  revert m. induction n as [|n IH]; intros m R O; cbv zeta.
  - cbn. repeat split; try assumption. lia.
  - cbn [repeat run fold_left]. rewrite (notify_open EOL m w change O).
    unfold listener. cbn [withThis this setInternalQueue isReading].
    rewrite R.
    set (m1 := withThis _ m).
    destruct (IH m1 R O) as (H1 & H2 & H3 & H4).
    unfold run in *. rewrite H1, H2, H3, H4. subst m1. cbn.
    repeat split. lia.
Qed.

Lemma passes_drain_queue (EOL : string) (settled : list FileSystem) (m : Machine) :
  tasks m = [AwaitPass] ->
  internalQueue (this m) = Z.of_nat (length settled) ->
  settled <> [] ->
  Forall (fun fs => forall t, snd (streamFileFromCursor EOL fs t) = None) settled ->
  let idle := run EOL m (map (PassSettles 0) settled) in
  S (passes idle) = (passes m + length settled)%nat /\
  internalQueue (this idle) = 0 /\ isReading (this idle) = false /\
  tasks idle = [].
Proof.
  revert m. induction settled as [|fs settled IH]; intros m T Q N F; cbv zeta;
    [now elim N|].
  inversion F as [|fs' settled' Hfs F']. subst fs' settled'.
  cbn [map run fold_left step]. rewrite T. cbn [nth_error].
  unfold afterPass. change (this (removeTask 0 m)) with (this m).
  specialize (Hfs (this m)).
  destruct (streamFileFromCursor EOL fs (this m)) as [[t' lines] thrown] eqn:E.
  cbn [snd] in Hfs. subst thrown.
  apply pass_keeps_fields in E. destruct E as (_ & _ & Q' & _).
  unfold loopTest. cbn [withThis this emit setInternalQueue internalQueue].
  rewrite Q', Q. cbn [length].
  destruct settled as [|fs2 settled].
  - cbn. rewrite ?Q', ?Q, ?T. cbn. repeat split; lia.
  - replace (Z.of_nat (S (length (fs2 :: settled))) - 1 =? 0) with false
      by (symmetry; apply Z.eqb_neq; cbn [length]; lia).
    cbn [negb].
    set (m1 := startPass _).
    assert (T1 : tasks m1 = [AwaitPass]).
    { subst m1. unfold startPass. cbn. now rewrite T. }
    assert (Q1 : internalQueue (this m1) = Z.of_nat (length (fs2 :: settled))).
    { subst m1. unfold startPass.
      cbn [spawn countPass withThis this setIsReading setInternalQueue
           internalQueue emit].
      rewrite Q', Q. cbn [length]. lia. }
    destruct (IH m1 T1 Q1 ltac:(discriminate) F') as (H1 & H2 & H3 & H4).
    unfold run in *. repeat split; try assumption.
    rewrite H1. subst m1. cbn. lia.
Qed.

(** C4, as the code has it. Every data-change notification increments the
    queue counter; while a pass is in flight it does nothing else.  When
    the pass settles the loop runs one more pass for each notification
    counted meanwhile, one after the other, and only when the counter is
    back at 0 is the reading flag cleared: a burst of [n] notifications
    costs [n] further passes. *)
Theorem burst_runs_one_pass_per_notification
  (EOL : string) (m : Machine) (w : FSWatcher) (n : nat)
  (settled : list FileSystem)
  (Hidle : isReading (this m) = false)
  (Hqueue : internalQueue (this m) = 0)
  (Htasks : tasks m = [])
  (Hopen : In w (opened m))
  (Hlength : length settled = S n)
  (Hfine : Forall (fun fs => forall t, snd (streamFileFromCursor EOL fs t) = None)
                  settled) :
  let inFlight := step EOL m (Notify w change) in
  let burst := run EOL inFlight (repeat (Notify w change) n) in
  let idle := run EOL burst (map (PassSettles 0) settled) in
  (passes inFlight = S (passes m) /\ isReading (this inFlight) = true /\
   tasks inFlight = [AwaitPass]) /\
  (passes burst = passes inFlight /\ tasks burst = [AwaitPass] /\
   internalQueue (this burst) = 1 + Z.of_nat n) /\
  (passes idle = (passes inFlight + n)%nat /\
   internalQueue (this idle) = 0 /\ isReading (this idle) = false /\
   tasks idle = []).
Proof.
  cbv zeta. rewrite (notify_open EOL m w change Hopen).
  unfold listener. cbn [withThis this setInternalQueue isReading].
  rewrite Hidle.
  set (inFlight := startPass _).
  assert (P : passes inFlight = S (passes m)) by reflexivity.
  assert (R : isReading (this inFlight) = true) by reflexivity.
  assert (T : tasks inFlight = [AwaitPass])
    by (subst inFlight; cbn; now rewrite Htasks).
  assert (Q : internalQueue (this inFlight) = 1)
    by (subst inFlight; cbn; now rewrite Hqueue).
  assert (O : In w (opened inFlight)) by exact Hopen.
  destruct (notifications_while_reading EOL w n inFlight R O)
    as (B1 & B2 & B3 & B4).
  set (burst := run EOL inFlight (repeat (Notify w change) n)) in *.
  rewrite T in B2. rewrite Q in B4.
  assert (N : settled <> []) by (intros ->; discriminate Hlength).
  assert (Q' : internalQueue (this burst) = Z.of_nat (length settled))
    by (rewrite B4, Hlength; lia).
  destruct (passes_drain_queue EOL settled burst B2 Q' N Hfine)
    as (D1 & D2 & D3 & D4).
  repeat match goal with |- _ /\ _ => split end; try assumption.
  rewrite B1, Hlength in D1. lia.
Qed.

Lemma regular_pass_settles (EOL : string) (highWaterMark : nat)
  (content : string) (t : TailCat) :
  snd (streamFileFromCursor EOL (snapshot highWaterMark (Regular content)) t)
  = None.
Proof.
  unfold streamFileFromCursor. cbn [snapshot stat size createReadStream].
  destruct (_ <=? 0); [reflexivity|].
  destruct (_ >=? _); [reflexivity|].
  cbn [failure items].
  now destruct (Splitter.processChunks _ _ _).
Qed.

Lemma burst_runs_one_pass_per_notification_witness :
  let m := watchingEmptyFile "app.log" in
  let fs := regular ("a" ++ LF) in
  let inFlight := step LF m (Notify 0%nat change) in
  let burst := run LF inFlight (repeat (Notify 0%nat change) 3) in
  let idle := run LF burst (map (PassSettles 0) [fs; fs; fs; fs]) in
  (passes inFlight = S (passes m) /\ isReading (this inFlight) = true /\
   tasks inFlight = [AwaitPass]) /\
  (passes burst = passes inFlight /\ tasks burst = [AwaitPass] /\
   internalQueue (this burst) = 1 + Z.of_nat 3) /\
  (passes idle = (passes inFlight + 3)%nat /\
   internalQueue (this idle) = 0 /\ isReading (this idle) = false /\
   tasks idle = []).
Proof.
  apply (burst_runs_one_pass_per_notification LF
           (watchingEmptyFile "app.log") 0%nat 3
           [regular ("a" ++ LF); regular ("a" ++ LF);
            regular ("a" ++ LF); regular ("a" ++ LF)]).
  - reflexivity.
  - reflexivity.
  - reflexivity.
  - left. reflexivity.
  - reflexivity.
  - repeat constructor; intros t; apply regular_pass_settles.
Defined.

(** C4 fails as stated: one notification starts a pass, three more arrive
    while it is in flight.  After the pass in flight and one further pass
    the session is still reading with two passes to go; it is idle only
    after three further passes, not one. *)
Lemma burst_of_three_costs_three_passes :
  let fs := regular ("a" ++ LF) in
  let inFlight := step LF (watchingEmptyFile "app.log") (Notify 0%nat change) in
  let burst := run LF inFlight (repeat (Notify 0%nat change) 3) in
  let oneMore := run LF burst [PassSettles 0 fs; PassSettles 0 fs] in
  let idle := run LF oneMore [PassSettles 0 fs; PassSettles 0 fs] in
  passes inFlight = 1%nat /\ passes burst = 1%nat /\
  internalQueue (this burst) = 4 /\
  (isReading (this oneMore) = true /\ internalQueue (this oneMore) = 2 /\
   tasks oneMore = [AwaitPass]) /\
  (isReading (this idle) = false /\ internalQueue (this idle) = 0 /\
   tasks idle = []) /\
  passes idle = 4%nat /\
  ~ (passes idle - passes inFlight <= 1)%nat.
Proof.
  cbv zeta.
  repeat match goal with |- _ /\ _ => split end; try reflexivity.
  vm_compute. lia.
Qed.

(** ** Lines lost or invented *)

Lemma eqbLines_eq (a b : list string) : eqbLines a b = true -> a = b.
Proof.
  revert b. induction a as [|x a IH]; intros [|y b]; cbn; try discriminate.
  - reflexivity.
  - intros H. apply andb_true_iff in H. destruct H as [H1 H2].
    apply String.eqb_eq in H1. apply IH in H2. now subst.
Qed.

(** C1 fails on one line written with its terminator, as long as a chunk
    of the stream (65536 characters): the first chunk holds no separator,
    and the session emits the text "undefined" before the line. *)
Theorem long_line_emits_undefined :
  let written := longLine ++ LF in
  let m := run LF (watchingEmptyFile "app.log")
             [Notify 0%nat change; PassSettles 0 (regular written)] in
  emitted m = ["undefined"; longLine] /\ emitted m <> [longLine].
Proof.
  cbv zeta.
  assert (E : emitted (run LF (watchingEmptyFile "app.log")
                [Notify 0%nat change; PassSettles 0 (regular (longLine ++ LF))])
              = ["undefined"; longLine]).
  { apply eqbLines_eq. vm_compute. reflexivity. }
  split; [exact E|]. rewrite E. intros H. discriminate H.
Qed.

(** C2 fails when a pass reads "foo", a separator and the first two
    characters of the line "bar", and the next pass reads the rest with
    its separator: the first pass emits "foo" and moves the cursor past
    "ba", the second emits "r"; "bar" is never emitted. *)
Theorem line_split_across_passes_is_lost :
  let first := regular ("foo" ++ LF ++ "ba") in
  let second := regular ("foo" ++ LF ++ "bar" ++ LF) in
  let pass1 := run LF (watchingEmptyFile "app.log")
                 [Notify 0%nat change; PassSettles 0 first] in
  let pass2 := run LF pass1 [Notify 0%nat change; PassSettles 0 second] in
  emitted pass1 = ["foo"] /\ cursor (this pass1) = 6 /\
  emitted pass2 = ["foo"; "r"] /\ cursor (this pass2) = 8 /\
  ~ In "bar" (emitted pass2).
Proof.
  cbv zeta.
  repeat match goal with |- _ /\ _ => split end; try reflexivity.
  vm_compute. intros [H|[H|[]]]; discriminate H.
Qed.

(** ** Watching a directory *)

(** C8 fails on a directory whose reported size is 4096 when [watch] is
    called with cursor 4096: the test of line 104 reads the method
    [isFile] without calling it, so it never throws; nothing is read, the
    watch is attached to the directory and the promise resolves.  Without
    a cursor the promise is rejected, but by the read stream (EISDIR). *)
Theorem watch_on_directory_resolves :
  let dir := directory 4096 in
  (forall fileData m,
     afterStat (Ok fileData) m = afterTry (Some (size fileData)) m) /\
  (let m := run LF (fresh "/var/log")
              [CallWatch (Some 4096); StatSettles 0 (stat dir)] in
   outcomes m = [WatchResolved] /\ watcher (this m) = Some 0%nat /\
   opened m = [0%nat]) /\
  (let m := run LF (fresh "/var/log")
              [CallWatch None; StatSettles 0 (stat dir); PassSettles 0 dir] in
   outcomes m = [WatchRejected EISDIR] /\ watcher (this m) = None).
Proof.
  cbv zeta. split; [reflexivity|]. split; repeat split.
Qed.

(** * Further properties *)

Import DirectoryWatcher Accounting.

(** ** More on the line splitter *)

Section SeparatorOfOneCharacter.

Variable ch : ascii.
Local Abbreviation sep := (String ch EmptyString).

Lemma includes_append (a b : string) :
  includes (a ++ b) sep = includes a sep || includes b sep.
Proof.
  induction a as [|c a IH].
  - cbn [append]. change (includes "" sep) with false. reflexivity.
  - change (String c a ++ b) with (String c (a ++ b)).
    rewrite !includes_cons, IH. apply orb_assoc.
Qed.

Lemma split_terminated (lines : list string) :
  Forall (fun line => includes line sep = false) lines ->
  split (terminated sep lines) sep = (lines ++ [""])%list.
Proof.
  induction lines as [|line lines IH]; intros F; [reflexivity|].
  inversion F as [|x l Hline F']. subst x l.
  cbn [terminated fold_right]. fold (terminated sep lines).
  rewrite split_append, (split_without_separator _ _ Hline).
  change (sep ++ terminated sep lines)
    with (String ch (terminated sep lines)).
  rewrite split_cons, Ascii.eqb_refl, (IH F').
  cbn [removelast last hd tl app]. now rewrite append_empty_r.
Qed.

(** X2. Within one stream of bytes below 128 the place of the chunk
    boundaries does not matter: two ways of cutting the same bytes into
    chunks that each hold a separator give the same lines and the same
    carried fragment. *)
Theorem chunk_boundaries_do_not_matter
  (items items' : list string)
  (Hitems : Forall (fun item => includes item sep = true) items)
  (Hitems' : Forall (fun item => includes item sep = true) items')
  (Hascii : Forall (fun item => asciiOnly item = true) items)
  (Hascii' : Forall (fun item => asciiOnly item = true) items')
  (Hbytes : Splitter.joined items = Splitter.joined items') :
  Splitter.processChunks sep "" items = Splitter.processChunks sep "" items'.
Proof.
  rewrite (processChunks_with_separators ch items "" eq_refl Hitems).
  rewrite (processChunks_with_separators ch items' "" eq_refl Hitems').
  cbn [append]. now rewrite Hbytes.
Qed.

(** X3. Lines of bytes below 128 written each with its separator come
    back as written:
    when the chunks of a stream each hold a separator and together are
    the bytes of [lines], every line followed by the separator, the loop
    emits the non-blank lines of [lines] in order and carries nothing
    over. *)
Theorem terminated_lines_are_emitted
  (lines items : list string)
  (Hlines : Forall (fun line => includes line sep = false) lines)
  (Hitems : Forall (fun item => includes item sep = true) items)
  (Hascii : Forall (fun item => asciiOnly item = true) items)
  (Hbytes : Splitter.joined items = terminated sep lines) :
  Splitter.processChunks sep "" items = (filter notBlank lines, "").
Proof.
  rewrite (processChunks_with_separators ch items "" eq_refl Hitems).
  cbn [append]. rewrite Hbytes.
  unfold Splitter.completeLines, Splitter.unterminated.
  rewrite (split_terminated lines Hlines).
  now rewrite removelast_last, last_last.
Qed.

Lemma setFirst_in (chunks : list string) (v x : string) :
  In x (setFirst chunks v) -> x = v \/ In x (tl chunks).
Proof. destruct chunks; cbn; intuition auto. Qed.

Lemma first_in (chunks : list string) (x : string) :
  first chunks = Some x -> In x chunks.
Proof. destruct chunks; cbn; [discriminate | intros [= ->]; now left]. Qed.

Lemma pop_in (chunks rest : list string) (last : option string) :
  pop chunks = (last, rest) ->
  (forall x, In x rest -> In x chunks) /\
  (forall x, last = Some x -> In x chunks).
Proof.
  unfold pop. destruct (rev chunks) as [|y r] eqn:E.
  - intros [= <- <-]. split; [intros x [] | discriminate].
  - intros [= <- <-].
    assert (C : chunks = (rev r ++ [y])%list).
    { rewrite <- (rev_involutive chunks), E. reflexivity. }
    rewrite C. split.
    + intros x H. apply in_or_app. now left.
    + intros x [= ->]. apply in_or_app. right. now left.
Qed.

Lemma processChunk_without_separator_inside (tail stringChunk : string)
  (Hundefined : includes "undefined" sep = false) :
  includes tail sep = false ->
  Forall (fun line => includes line sep = false)
         (fst (Splitter.processChunk sep tail stringChunk)) /\
  includes (snd (Splitter.processChunk sep tail stringChunk)) sep = false.
Proof.
  intros Ht. unfold Splitter.processChunk.
  pose proof (segments_without_separator ch stringChunk) as S.
  set (segments := split stringChunk sep) in *.
  assert (I : forall v, includes (interpolate v) sep = false \/
                        exists x, v = Some x).
  { intros [x|]; [right; now exists x | now left]. }
  assert (P : forall last rest,
     (forall x, In x rest -> In x segments) ->
     includes (interpolate last) sep = false ->
     Forall (fun line => includes line sep = false)
       (filter notBlank (setFirst rest (tail ++ interpolate (first rest)))) /\
     includes (interpolate last) sep = false).
  { intros last rest R L. split; [|exact L].
    apply Forall_forall. intros x H. apply filter_In in H.
    destruct H as [H _]. apply setFirst_in in H. destruct H as [->|H].
    - rewrite includes_append, Ht. cbn [orb].
      destruct (first rest) as [y|] eqn:F; [|exact Hundefined].
      apply S, R, first_in, F.
    - apply S, R. destruct rest; [destruct H | now right]. }
  destruct (negb (endsWith stringChunk sep)).
  - destruct (pop segments) as [last rest] eqn:E.
    destruct (pop_in _ _ _ E) as [R L].
    cbn [fst snd]. apply P; [exact R|].
    destruct last as [x|]; [apply S, L; reflexivity | exact Hundefined].
  - cbn [fst snd]. apply (P (Some "") segments); [auto | reflexivity].
Qed.

Lemma processChunks_without_separator_inside (items : list string)
  (tail : string) (Hundefined : includes "undefined" sep = false) :
  includes tail sep = false ->
  Forall (fun line => includes line sep = false)
         (fst (Splitter.processChunks sep tail items)).
Proof.
  revert tail. induction items as [|item items IH]; intros tail Ht;
    [constructor|].
  cbn [Splitter.processChunks].
  destruct (processChunk_without_separator_inside tail item Hundefined Ht)
    as [H1 H2].
  destruct (Splitter.processChunk sep tail item) as [lines tail'].
  specialize (IH tail' H2).
  destruct (Splitter.processChunks sep tail' items) as [lines' tail''].
  cbn [fst snd] in *. apply Forall_app. now split.
Qed.

End SeparatorOfOneCharacter.

Lemma chunk_boundaries_do_not_matter_witness :
  Splitter.processChunks LF "" ["ab" ++ LF ++ "cd"; "ef" ++ LF] =
  Splitter.processChunks LF "" ["ab" ++ LF; "cdef" ++ LF].
Proof.
  apply (chunk_boundaries_do_not_matter "010"%char
           ["ab" ++ LF ++ "cd"; "ef" ++ LF] ["ab" ++ LF; "cdef" ++ LF]).
  - repeat constructor.
  - repeat constructor.
  - repeat constructor.
  - repeat constructor.
  - reflexivity.
Defined.

Lemma terminated_lines_are_emitted_witness :
  Splitter.processChunks LF ""
    ["foo_0" ++ LF ++ " " ++ LF ++ "fo"; "o_1" ++ LF] =
  (["foo_0"; "foo_1"], "").
Proof.
  apply (terminated_lines_are_emitted "010"%char ["foo_0"; " "; "foo_1"]
           ["foo_0" ++ LF ++ " " ++ LF ++ "fo"; "o_1" ++ LF]).
  - repeat constructor.
  - repeat constructor.
  - repeat constructor.
  - reflexivity.
Defined.

(** ** What a pass emits and where it leaves the cursor *)

Lemma processChunks_not_blank (EOL tail : string) (items : list string) :
  Forall (fun line => notBlank line = true)
         (fst (Splitter.processChunks EOL tail items)).
Proof.
  revert tail. induction items as [|item items IH]; intros tail;
    [constructor|].
  cbn [Splitter.processChunks].
  assert (H : Forall (fun line => notBlank line = true)
                     (fst (Splitter.processChunk EOL tail item))).
  { unfold Splitter.processChunk.
    destruct (negb _); [destruct (pop _)|]; cbn [fst];
      apply Forall_forall; intros x Hx; now apply filter_In in Hx. }
  destruct (Splitter.processChunk EOL tail item) as [lines tail'].
  specialize (IH tail').
  destruct (Splitter.processChunks EOL tail' items) as [lines' tail''].
  cbn [fst] in *. apply Forall_app. now split.
Qed.

Lemma pass_lines (EOL : string) (fs : FileSystem) (t : TailCat) :
  snd (fst (streamFileFromCursor EOL fs t)) = [] \/
  exists items,
    snd (fst (streamFileFromCursor EOL fs t)) =
      fst (Splitter.processChunks EOL "" items).
Proof.
  unfold streamFileFromCursor.
  destruct (stat fs) as [stats|err]; [|now left].
  destruct (size stats <=? 0); [now left|].
  destruct (cursor t >=? size stats); [now left|].
  right. exists (items (createReadStream fs (cursor t) (size stats))).
  destruct (Splitter.processChunks _ _ _) as [lines tail].
  now destruct (failure _).
Qed.

Lemma pass_cursor_le (EOL : string) (fs : FileSystem) (t : TailCat) :
  cursor t <= cursor (fst (fst (streamFileFromCursor EOL fs t))).
Proof.
  unfold streamFileFromCursor.
  destruct (stat fs) as [stats|err]; cbn [fst]; [|lia].
  destruct (size stats <=? 0); cbn [fst]; [lia|].
  destruct (cursor t >=? size stats) eqn:E; cbn [fst]; [lia|].
  rewrite Z.geb_leb in E. apply Z.leb_gt in E.
  destruct (Splitter.processChunks _ _ _) as [lines tail].
  destruct (failure _); cbn [fst cursor setCursor]; lia.
Qed.

(** X6. A pass never moves the cursor backwards.  It moves it only when
    it did not throw, and then to the size its own [stat] reported,
    which is positive. *)
Theorem pass_moves_cursor_forward_only
  (EOL : string) (fs : FileSystem) (t : TailCat) :
  let after := fst (fst (streamFileFromCursor EOL fs t)) in
  let thrown := snd (streamFileFromCursor EOL fs t) in
  cursor t <= cursor after /\
  (thrown <> None -> after = t) /\
  (cursor after <> cursor t ->
   thrown = None /\
   exists stats, stat fs = Ok stats /\ cursor after = size stats /\
                 0 < size stats /\ cursor t < size stats).
Proof.
  cbv zeta. unfold streamFileFromCursor.
  destruct (stat fs) as [stats|err]; cbn [fst snd];
    [|repeat split; try lia; intros H; now elim H].
  destruct (size stats <=? 0) eqn:E1; cbn [fst snd];
    [repeat split; try lia; intros H; now elim H|].
  destruct (cursor t >=? size stats) eqn:E2; cbn [fst snd];
    [repeat split; try lia; intros H; now elim H|].
  apply Z.leb_gt in E1. rewrite Z.geb_leb in E2. apply Z.leb_gt in E2.
  destruct (Splitter.processChunks _ _ _) as [lines tail].
  destruct (failure _) as [err|]; cbn [fst snd cursor setCursor].
  - repeat split; try lia; intros H; now elim H.
  - repeat split; try lia; try (intros H; now elim H).
    exists stats. repeat split; lia.
Qed.

Lemma pass_moves_cursor_forward_only_witness :
  let fs := regular ("foo" ++ LF ++ "ba") in
  let t := this (fresh "app.log") in
  let after := fst (fst (streamFileFromCursor LF fs t)) in
  cursor after = 6 /\
  snd (streamFileFromCursor LF fs t) = None /\
  exists stats, stat fs = Ok stats /\ cursor after = size stats /\
                0 < size stats /\ cursor t < size stats.
Proof.
  cbv zeta. split; [reflexivity|].
  destruct (pass_moves_cursor_forward_only LF
              (regular ("foo" ++ LF ++ "ba")) (this (fresh "app.log")))
    as (_ & _ & H).
  apply H. discriminate.
Defined.

(** ** The fields of the machine, step by step *)

Ltac machine_cases :=
  repeat match goal with
         | |- context [match ?x with _ => _ end] => destruct x eqn:?
         | |- context [if ?x then _ else _] => destruct x eqn:?
         end.

Lemma afterCatchUp_fields (size : option Z) (m : Machine) :
  let m' := afterCatchUp size m in
  emitted m' = emitted m /\ tasks m' = tasks m /\ passes m' = passes m /\
  isReading (this m') = isReading (this m) /\
  internalQueue (this m') = internalQueue (this m) /\
  outcomes m' = (outcomes m ++ [WatchResolved])%list.
Proof.
  cbv zeta. unfold afterCatchUp, attach.
  destruct m as [[c r w p q] ts op at_ em oc ps].
  destruct size as [sz|]; cbn; machine_cases; cbn; repeat split.
Qed.

Lemma afterTry_fields (size : option Z) (m : Machine) :
  let m' := afterTry size m in
  emitted m' = emitted m /\ passes m' = passes m /\
  isReading (this m') = isReading (this m) /\
  internalQueue (this m') = internalQueue (this m) /\
  filter Accounting.isAwaitPass (tasks m') =
    filter Accounting.isAwaitPass (tasks m).
Proof.
  cbv zeta. unfold afterTry.
  destruct (ltNumber _ _).
  - cbn. repeat split. rewrite filter_app. cbn. apply app_nil_r.
  - destruct (afterCatchUp_fields size m) as (H1 & H2 & H3 & H4 & H5 & _).
    rewrite H1, H2, H3, H4, H5. repeat split.
Qed.

Lemma afterStat_fields (answer : Result Stats) (m : Machine) :
  let m' := afterStat answer m in
  emitted m' = emitted m /\ passes m' = passes m /\
  isReading (this m') = isReading (this m) /\
  internalQueue (this m') = internalQueue (this m) /\
  filter Accounting.isAwaitPass (tasks m') =
    filter Accounting.isAwaitPass (tasks m).
Proof.
  cbv zeta. unfold afterStat. destruct answer as [fileData|err].
  - cbn [truthyMethod negb]. apply afterTry_fields.
  - destruct (notENOENT err); cbn; repeat split.
    rewrite filter_app. cbn. apply app_nil_r.
Qed.

Lemma afterDirectoryWatcher_fields (answer : Result unit) (m : Machine) :
  let m' := afterDirectoryWatcher answer m in
  emitted m' = emitted m /\ passes m' = passes m /\
  isReading (this m') = isReading (this m) /\
  internalQueue (this m') = internalQueue (this m) /\
  filter Accounting.isAwaitPass (tasks m') =
    filter Accounting.isAwaitPass (tasks m).
Proof.
  cbv zeta. unfold afterDirectoryWatcher. destruct answer as [u|err].
  - apply afterTry_fields.
  - cbn. repeat split.
Qed.

Lemma afterCatchUpPass_fields (EOL : string) (size : option Z)
  (fs : FileSystem) (m : Machine) :
  let m' := afterCatchUpPass EOL size fs m in
  emitted m' =
    (emitted m ++ snd (fst (streamFileFromCursor EOL fs (this m))))%list /\
  tasks m' = tasks m /\ passes m' = passes m /\
  isReading (this m') = isReading (this m) /\
  internalQueue (this m') = internalQueue (this m).
Proof.
  cbv zeta. unfold afterCatchUpPass.
  destruct (streamFileFromCursor EOL fs (this m)) as [[t' lines] thrown] eqn:E.
  apply pass_keeps_fields in E. destruct E as (R & _ & Q & _).
  cbn [fst snd]. destruct thrown as [err|].
  - cbn. repeat split; assumption.
  - destruct (afterCatchUp_fields size (emit lines (withThis (fun _ => t') m)))
      as (H1 & H2 & H3 & H4 & H5 & _).
    rewrite H1, H2, H3, H4, H5. cbn. repeat split; assumption.
Qed.

Lemma afterPass_emitted (EOL : string) (fs : FileSystem) (m : Machine) :
  emitted (afterPass EOL fs m) =
    (emitted m ++ snd (fst (streamFileFromCursor EOL fs (this m))))%list.
Proof.
  unfold afterPass.
  destruct (streamFileFromCursor EOL fs (this m)) as [[t' lines] thrown].
  cbn [fst snd]. unfold loopTest, unwatchBody, startPass.
  destruct thrown as [err|]; [destruct (notENOENT err)|];
    cbn; machine_cases; reflexivity.
Qed.

Lemma step_emitted (EOL : string) (m : Machine) (e : Event) :
  emitted (step EOL m e) = emitted m \/
  exists fs,
    emitted (step EOL m e) =
      (emitted m ++ snd (fst (streamFileFromCursor EOL fs (this m))))%list.
Proof.
  destruct e as [c| |i answer|i answer|i fs|w ev]; cbn [step].
  - left. unfold watch. now destruct (watcher (this m)).
  - left. unfold unwatch, unwatchBody. now destruct (watcher (this m)).
  - left. destruct (nth_error (tasks m) i) as [[| | |]|]; try reflexivity.
    now destruct (afterStat_fields answer (removeTask i m)) as (-> & _).
  - left. destruct (nth_error (tasks m) i) as [[| | |]|]; try reflexivity.
    now destruct (afterDirectoryWatcher_fields answer (removeTask i m))
      as (-> & _).
  - destruct (nth_error (tasks m) i) as [[| |size|]|]; try now left.
    + right. exists fs.
      now destruct (afterCatchUpPass_fields EOL size fs (removeTask i m))
        as (-> & _).
    + right. exists fs. now rewrite afterPass_emitted.
  - left. destruct (existsb _ _); [|reflexivity].
    unfold listener. destruct ev; [reflexivity|].
    cbn [withThis this isReading setInternalQueue].
    now destruct (isReading (this m)).
Qed.

Lemma emitted_run (EOL : string) (P : string -> Prop) :
  (forall fs t, Forall P (snd (fst (streamFileFromCursor EOL fs t)))) ->
  forall events m, Forall P (emitted m) -> Forall P (emitted (run EOL m events)).
Proof.
  intros H events. unfold run.
  induction events as [|e events IH]; intros m F; [exact F|].
  cbn [fold_left]. apply IH.
  destruct (step_emitted EOL m e) as [->|[fs ->]]; [exact F|].
  apply Forall_app. split; [exact F | apply H].
Qed.

(** ** Line events *)

Lemma asciiOnly_append (a b : string) :
  asciiOnly (a ++ b) = asciiOnly a && asciiOnly b.
Proof.
  unfold asciiOnly. induction a as [|c a IH];
    cbn [append list_ascii_of_string forallb]; [reflexivity|].
  rewrite IH. apply andb_assoc.
Qed.

Lemma asciiOnly_cons (c : ascii) (s : string) :
  asciiOnly (String c s) = Nat.ltb (nat_of_ascii c) 128 && asciiOnly s.
Proof. reflexivity. Qed.

Lemma splitFrom_ascii (sep : string) (s : string) (skip : nat) :
  asciiOnly s = true ->
  Forall (fun segment => asciiOnly segment = true) (splitFrom sep skip s).
Proof.
  revert skip. induction s as [|c s IH]; intros skip A.
  - repeat constructor.
  - rewrite asciiOnly_cons in A. apply andb_true_iff in A.
    destruct A as [C A]. cbn [splitFrom].
    destruct skip as [|k]; [|now apply IH].
    destruct (prefix sep (String c s)).
    + constructor; [reflexivity | now apply IH].
    + specialize (IH 0%nat A).
      destruct (splitFrom sep 0 s) as [|segment rest].
      * repeat constructor. rewrite asciiOnly_cons, C. reflexivity.
      * inversion IH as [|x l Hx Hl]. subst x l.
        constructor; [|exact Hl]. rewrite asciiOnly_cons, C. exact Hx.
Qed.

Lemma processChunk_ascii (EOL tail stringChunk : string) :
  asciiOnly tail = true -> asciiOnly stringChunk = true ->
  Forall (fun line => asciiOnly line = true)
         (fst (Splitter.processChunk EOL tail stringChunk)) /\
  asciiOnly (snd (Splitter.processChunk EOL tail stringChunk)) = true.
Proof.
  intros Ht Hc. unfold Splitter.processChunk.
  pose proof (splitFrom_ascii EOL stringChunk 0 Hc) as S.
  fold (split stringChunk EOL) in S. rewrite Forall_forall in S.
  set (segments := split stringChunk EOL) in *.
  assert (P : forall rest,
     (forall x, In x rest -> In x segments) ->
     Forall (fun line => asciiOnly line = true)
       (filter notBlank (setFirst rest (tail ++ interpolate (first rest))))).
  { intros rest R. apply Forall_forall. intros x H. apply filter_In in H.
    destruct H as [H _]. apply setFirst_in in H. destruct H as [->|H].
    - rewrite asciiOnly_append, Ht. cbn [andb].
      destruct (first rest) as [y|] eqn:F; [|reflexivity].
      apply S, R, first_in, F.
    - apply S, R. destruct rest; [destruct H | now right]. }
  destruct (negb (endsWith stringChunk EOL)).
  - destruct (pop segments) as [last rest] eqn:E.
    destruct (pop_in _ _ _ E) as [R L]. cbn [fst snd].
    split; [now apply P|].
    destruct last as [x|]; [apply S, L; reflexivity | reflexivity].
  - cbn [fst snd]. split; [apply P; auto | reflexivity].
Qed.

Lemma processChunks_ascii (EOL : string) (items : list string) (tail : string) :
  asciiOnly tail = true ->
  Forall (fun item => asciiOnly item = true) items ->
  Forall (fun line => asciiOnly line = true)
         (fst (Splitter.processChunks EOL tail items)).
Proof.
  revert tail. induction items as [|item items IH]; intros tail Ht F;
    [constructor|].
  inversion F as [|x l Hitem F']. subst x l.
  cbn [Splitter.processChunks].
  destruct (processChunk_ascii EOL tail item Ht Hitem) as [H1 H2].
  destruct (Splitter.processChunk EOL tail item) as [lines tail'].
  specialize (IH tail' H2 F').
  destruct (Splitter.processChunks EOL tail' items) as [lines' tail''].
  cbn [fst snd] in *. apply Forall_app. now split.
Qed.

Lemma substring_ascii (s : string) (n m : nat) :
  asciiOnly s = true -> asciiOnly (substring n m s) = true.
Proof.
  revert n m. induction s as [|c s IH]; intros n m A.
  - now destruct n, m.
  - rewrite asciiOnly_cons in A. apply andb_true_iff in A.
    destruct A as [C A]. destruct n as [|n]; [|cbn; now apply IH].
    destruct m as [|m]; [reflexivity|].
    cbn [substring]. rewrite asciiOnly_cons, C. now apply IH.
Qed.

Lemma chunksOf_ascii (fuel highWaterMark : nat) (bytes : string) :
  asciiOnly bytes = true ->
  Forall (fun item => asciiOnly item = true)
         (chunksOf fuel highWaterMark bytes).
Proof.
  revert bytes. induction fuel as [|fuel IH]; intros bytes A; [constructor|].
  cbn [chunksOf]. destruct bytes as [|c bytes]; [constructor|].
  constructor; [now apply substring_ascii|].
  apply IH. now apply substring_ascii.
Qed.

Lemma regular_asciiStreams (highWaterMark : nat) (content : string) :
  asciiOnly content = true ->
  Accounting.asciiStreams (snapshot highWaterMark (Regular content)).
Proof.
  intros A start end_. cbn [snapshot createReadStream items].
  apply chunksOf_ascii. unfold byteRange. now apply substring_ascii.
Qed.

Lemma pass_lines_ascii (EOL : string) (fs : FileSystem) (t : TailCat) :
  Accounting.asciiStreams fs ->
  Forall (fun line => notBlank line = true /\ asciiOnly line = true)
         (snd (fst (streamFileFromCursor EOL fs t))).
Proof.
  intros A. unfold streamFileFromCursor.
  destruct (stat fs) as [stats|err]; [|constructor].
  destruct (size stats <=? 0); [constructor|].
  destruct (cursor t >=? size stats); [constructor|].
  pose proof (processChunks_not_blank EOL ""
                (items (createReadStream fs (cursor t) (size stats)))) as B.
  pose proof (processChunks_ascii EOL _ "" eq_refl
                (A (cursor t) (size stats))) as C.
  destruct (Splitter.processChunks _ _ _) as [lines tail].
  cbn [fst] in B, C.
  assert (F : Forall (fun line => notBlank line = true /\ asciiOnly line = true)
                     lines).
  { rewrite Forall_forall in *. intros x H. split; auto. }
  now destruct (failure _).
Qed.

Lemma step_emitted_by (EOL : string) (m : Machine) (e : Event) :
  emitted (step EOL m e) = emitted m \/
  exists i fs,
    e = PassSettles i fs /\
    emitted (step EOL m e) =
      (emitted m ++ snd (fst (streamFileFromCursor EOL fs (this m))))%list.
Proof.
  destruct e as [c| |i answer|i answer|i fs|w ev]; cbn [step].
  - left. unfold watch. now destruct (watcher (this m)).
  - left. unfold unwatch, unwatchBody. now destruct (watcher (this m)).
  - left. destruct (nth_error (tasks m) i) as [[| | |]|]; try reflexivity.
    now destruct (afterStat_fields answer (removeTask i m)) as (-> & _).
  - left. destruct (nth_error (tasks m) i) as [[| | |]|]; try reflexivity.
    now destruct (afterDirectoryWatcher_fields answer (removeTask i m))
      as (-> & _).
  - destruct (nth_error (tasks m) i) as [[| |size|]|]; try now left.
    + right. exists i, fs. split; [reflexivity|].
      now destruct (afterCatchUpPass_fields EOL size fs (removeTask i m))
        as (-> & _).
    + right. exists i, fs. split; [reflexivity|].
      now rewrite afterPass_emitted.
  - left. destruct (existsb _ _); [|reflexivity].
    unfold listener. destruct ev; [reflexivity|].
    cbn [withThis this isReading setInternalQueue].
    now destruct (isReading (this m)).
Qed.

(** X4. When the file holds bytes below 128 only, whatever happens to a
    session no line event carries a blank line: every line emitted is
    made of such bytes and is non-empty after trimming. *)
Theorem emitted_lines_are_never_blank
  (EOL name : string) (events : list Event)
  (Hascii : Forall Accounting.asciiEvent events) :
  Forall (fun line => notBlank line = true /\ asciiOnly line = true)
         (emitted (run EOL (fresh name) events)).
Proof.
  assert (G : forall evs m,
     Forall Accounting.asciiEvent evs ->
     Forall (fun line => notBlank line = true /\ asciiOnly line = true)
            (emitted m) ->
     Forall (fun line => notBlank line = true /\ asciiOnly line = true)
            (emitted (run EOL m evs))).
  { unfold run. induction evs as [|e evs IH]; intros m A F; [exact F|].
    inversion A as [|x l He A']. subst x l.
    cbn [fold_left]. apply IH; [exact A'|].
    destruct (step_emitted_by EOL m e) as [->|(i & fs & -> & ->)];
      [exact F|].
    apply Forall_app. split; [exact F | now apply pass_lines_ascii]. }
  apply G; [exact Hascii | constructor].
Qed.

Lemma emitted_lines_are_never_blank_witness :
  let events :=
    [CallWatch None; StatSettles 0 (stat (regular ""));
     Notify 0%nat change;
     PassSettles 0 (regular ("foo" ++ LF ++ "  " ++ LF ++ "ba"))] in
  emitted (run LF (fresh "app.log") events) = ["foo"] /\
  Forall (fun line => notBlank line = true /\ asciiOnly line = true)
         (emitted (run LF (fresh "app.log") events)).
Proof.
  split; [reflexivity|].
  apply (emitted_lines_are_never_blank LF "app.log"
           [CallWatch None; StatSettles 0 (stat (regular ""));
            Notify 0%nat change;
            PassSettles 0 (regular ("foo" ++ LF ++ "  " ++ LF ++ "ba"))]).
  repeat constructor. now apply regular_asciiStreams.
Defined.

(** X5. With a separator of one character that does not occur in the
    text "undefined", no line event ever holds the separator: a line
    event is never two lines in one. *)
Theorem emitted_lines_hold_no_separator
  (ch : ascii) (name : string) (events : list Event)
  (Hundefined : includes "undefined" (String ch EmptyString) = false) :
  Forall (fun line => includes line (String ch EmptyString) = false)
         (emitted (run (String ch EmptyString) (fresh name) events)).
Proof.
  apply emitted_run; [|constructor].
  intros fs t.
  destruct (pass_lines (String ch EmptyString) fs t) as [->|[items ->]];
    [constructor|].
  now apply processChunks_without_separator_inside.
Qed.

Lemma emitted_lines_hold_no_separator_witness :
  Forall (fun line => includes line LF = false)
         (emitted (run LF (fresh "app.log")
                     [CallWatch None; StatSettles 0 (stat (regular ""));
                      Notify 0%nat change;
                      PassSettles 0 (regular ("foo" ++ LF ++ "ba"))])).
Proof.
  apply (emitted_lines_hold_no_separator "010"%char "app.log"
           [CallWatch None; StatSettles 0 (stat (regular ""));
            Notify 0%nat change;
            PassSettles 0 (regular ("foo" ++ LF ++ "ba"))]).
  reflexivity.
Defined.

(** ** The listener: reading flag, queue counter and passes in flight *)

Lemma nth_error_pieces {A : Type} (l : list A) (i : nat) (x : A) :
  nth_error l i = Some x ->
  l = (firstn i l ++ x :: skipn (S i) l)%list.
Proof.
  revert i. induction l as [|y l IH]; intros [|i] H; try discriminate.
  - cbn in H. injection H as ->. reflexivity.
  - cbn in H. cbn [firstn skipn app]. f_equal. now apply IH.
Qed.

Lemma removeTask_filter (p : Task -> bool) (m : Machine) (i : nat) (x : Task) :
  nth_error (tasks m) i = Some x ->
  filter p (tasks m) =
    (filter p (firstn i (tasks m)) ++
     (if p x then [x] else []) ++
     filter p (skipn (S i) (tasks m)))%list /\
  filter p (tasks (removeTask i m)) =
    (filter p (firstn i (tasks m)) ++ filter p (skipn (S i) (tasks m)))%list.
Proof.
  intros H. split.
  - rewrite (nth_error_pieces _ _ _ H) at 1.
    rewrite filter_app. cbn [filter]. now destruct (p x).
  - cbn [removeTask tasks]. apply filter_app.
Qed.

Lemma removeTask_other (m : Machine) (i : nat) (x : Task) :
  nth_error (tasks m) i = Some x -> Accounting.isAwaitPass x = false ->
  Accounting.passesInFlight (removeTask i m) = Accounting.passesInFlight m.
Proof.
  intros H P. unfold Accounting.passesInFlight.
  destruct (removeTask_filter Accounting.isAwaitPass m i x H) as [E1 E2].
  rewrite E1, E2, P. reflexivity.
Qed.

Lemma removeTask_pass (m : Machine) (i : nat) :
  nth_error (tasks m) i = Some AwaitPass ->
  Accounting.passesInFlight m = S (Accounting.passesInFlight (removeTask i m)).
Proof.
  intros H. unfold Accounting.passesInFlight.
  destruct (removeTask_filter Accounting.isAwaitPass m i _ H) as [E1 E2].
  rewrite E1, E2. cbn [Accounting.isAwaitPass].
  rewrite !length_app. cbn [length app]. lia.
Qed.

Lemma afterPass_cases (EOL : string) (fs : FileSystem) (m : Machine) :
  let m' := afterPass EOL fs m in
  let q := internalQueue (this m) in
  match snd (streamFileFromCursor EOL fs (this m)) with
  | None =>
      internalQueue (this m') = q - 1 /\ outcomes m' = outcomes m /\
      watcher (this m') = watcher (this m) /\ opened m' = opened m /\
      attached m' = attached m /\
      if q - 1 =? 0
      then tasks m' = tasks m /\ isReading (this m') = false /\
           passes m' = passes m
      else tasks m' = (tasks m ++ [AwaitPass])%list /\
           isReading (this m') = true /\ passes m' = S (passes m)
  | Some err =>
      tasks m' = tasks m /\ passes m' = passes m /\
      attached m' = attached m /\
      if notENOENT err
      then internalQueue (this m') = q /\
           isReading (this m') = isReading (this m) /\
           watcher (this m') = None /\
           opened m' = opened (unwatchBody m) /\
           outcomes m' = (outcomes m ++ [ListenerRejected err])%list
      else internalQueue (this m') = 0 /\ isReading (this m') = false /\
           watcher (this m') = watcher (this m) /\ opened m' = opened m /\
           outcomes m' = outcomes m
  end.
Proof.
  cbv zeta. unfold afterPass.
  destruct (streamFileFromCursor EOL fs (this m)) as [[t' lines] thrown] eqn:E.
  apply pass_keeps_fields in E. destruct E as (R & W & Q & _).
  cbn [snd]. destruct thrown as [err|].
  - destruct (notENOENT err).
    + unfold unwatchBody. cbn. rewrite ?W, ?Q, ?R.
      destruct (watcher (this m)); cbn; rewrite ?W, ?Q, ?R; repeat split.
    + unfold loopTest. cbn. rewrite W. repeat split.
  - unfold loopTest. cbn [withThis this emit setInternalQueue internalQueue].
    rewrite Q. destruct (internalQueue (this m) - 1 =? 0); cbn;
      rewrite ?W, ?Q; repeat split.
Qed.

Lemma listener_cases (w : FSWatcher) (m : Machine) :
  let m' := listener change m in
  internalQueue (this m') = internalQueue (this m) + 1 /\
  isReading (this m') = true /\
  cursor (this m') = cursor (this m) /\
  watcher (this m') = watcher (this m) /\ opened m' = opened m /\
  attached m' = attached m /\ outcomes m' = outcomes m /\
  if isReading (this m)
  then tasks m' = tasks m /\ passes m' = passes m
  else tasks m' = (tasks m ++ [AwaitPass])%list /\ passes m' = S (passes m).
Proof.
  cbv zeta. unfold listener.
  cbn [withThis this isReading setInternalQueue].
  destruct (isReading (this m)) eqn:R; cbn; rewrite ?R; repeat split.
Qed.

Lemma passesInFlight_spawn_pass (ts : list Task) :
  List.length (filter Accounting.isAwaitPass (ts ++ [AwaitPass])) =
  S (List.length (filter Accounting.isAwaitPass ts)).
Proof. rewrite filter_app, length_app. cbn. lia. Qed.

Lemma listenerConsistent_of (m m' : Machine) :
  filter Accounting.isAwaitPass (tasks m') =
    filter Accounting.isAwaitPass (tasks m) ->
  isReading (this m') = isReading (this m) ->
  internalQueue (this m') = internalQueue (this m) ->
  Accounting.listenerConsistent m -> Accounting.listenerConsistent m'.
Proof.
  unfold Accounting.listenerConsistent, Accounting.passesInFlight.
  now intros -> -> ->.
Qed.

Lemma listenerConsistent_step (EOL : string) (m : Machine) (e : Event) :
  Accounting.listenerConsistent m ->
  Accounting.listenerConsistent (step EOL m e).
Proof.
  intros H. destruct e as [c| |i answer|i answer|i fs|w ev]; cbn [step].
  - revert H. apply listenerConsistent_of; unfold watch;
      destruct (watcher (this m)); cbn; try reflexivity.
    rewrite filter_app. cbn. apply app_nil_r.
  - revert H. apply listenerConsistent_of; unfold unwatch, unwatchBody;
      destruct (watcher (this m)); reflexivity.
  - destruct (nth_error (tasks m) i) as [[| | |]|] eqn:T; try exact H.
    destruct (afterStat_fields answer (removeTask i m)) as (_ & _ & R & Q & F).
    revert H. apply listenerConsistent_of; try assumption.
    rewrite F.
    destruct (removeTask_filter Accounting.isAwaitPass m i _ T) as [E1 E2].
    now rewrite E1, E2.
  - destruct (nth_error (tasks m) i) as [[| | |]|] eqn:T; try exact H.
    destruct (afterDirectoryWatcher_fields answer (removeTask i m))
      as (_ & _ & R & Q & F).
    revert H. apply listenerConsistent_of; try assumption.
    rewrite F.
    destruct (removeTask_filter Accounting.isAwaitPass m i _ T) as [E1 E2].
    now rewrite E1, E2.
  - destruct (nth_error (tasks m) i) as [[| |size|]|] eqn:T; try exact H.
    + destruct (afterCatchUpPass_fields EOL size fs (removeTask i m))
        as (_ & F & _ & R & Q).
      revert H. apply listenerConsistent_of; try assumption.
      rewrite F.
      destruct (removeTask_filter Accounting.isAwaitPass m i _ T) as [E1 E2].
      now rewrite E1, E2.
    + pose proof (removeTask_pass m i T) as N.
      pose proof (afterPass_cases EOL fs (removeTask i m)) as C.
      cbv zeta in C. change (this (removeTask i m)) with (this m) in C.
      destruct H as (H0 & H1 & H2 & H3).
      assert (N0 : Accounting.passesInFlight (removeTask i m) = 0%nat) by lia.
      destruct (H2 ltac:(lia)) as [HR HQ].
      unfold Accounting.listenerConsistent, Accounting.passesInFlight in *.
      destruct (snd (streamFileFromCursor EOL fs (this m))) as [err|].
      * destruct C as (-> & _ & _ & C). destruct (notENOENT err).
        -- destruct C as (-> & -> & _). rewrite N0, HR.
           repeat split; try lia; discriminate.
        -- destruct C as (-> & -> & _). rewrite N0.
           repeat split; try lia.
      * destruct C as (-> & _ & _ & _ & _ & C).
        destruct (internalQueue (this m) - 1 =? 0) eqn:Z.
        -- destruct C as (-> & -> & _). apply Z.eqb_eq in Z. rewrite N0.
           repeat split; try lia.
        -- destruct C as (-> & -> & _). apply Z.eqb_neq in Z.
           rewrite passesInFlight_spawn_pass, N0.
           repeat split; try lia; discriminate.
  - destruct (existsb _ _); [|exact H].
    destruct ev; [exact H|].
    destruct (listener_cases w m) as (Q & R & _ & _ & _ & _ & _ & C).
    destruct H as (H0 & H1 & H2 & H3).
    unfold Accounting.listenerConsistent, Accounting.passesInFlight in *.
    rewrite Q, R. destruct (isReading (this m)).
    + destruct C as (-> & _). repeat split; try lia; discriminate.
    + destruct C as (-> & _). destruct (H3 eq_refl) as [N0 Q0].
      rewrite passesInFlight_spawn_pass, N0.
      repeat split; try lia; discriminate.
Qed.

Lemma listenerConsistent_run (EOL : string) (events : list Event) (m : Machine) :
  Accounting.listenerConsistent m ->
  Accounting.listenerConsistent (run EOL m events).
Proof.
  unfold run. revert m.
  induction events as [|e events IH]; intros m H; [exact H|].
  cbn [fold_left]. now apply IH, listenerConsistent_step.
Qed.

Lemma listenerConsistent_fresh (name : string) :
  Accounting.listenerConsistent (fresh name).
Proof.
  unfold Accounting.listenerConsistent. cbn.
  repeat split; try lia; discriminate.
Qed.

(** X7. However calls, settlements and notifications interleave, the
    listener has at most one pass in flight, and the reading flag is set
    while it has one. *)
Theorem at_most_one_listener_pass_in_flight
  (EOL name : string) (events : list Event) :
  let m := run EOL (fresh name) events in
  (Accounting.passesInFlight m <= 1)%nat /\
  (Accounting.passesInFlight m = 1%nat -> isReading (this m) = true).
Proof.
  cbv zeta.
  destruct (listenerConsistent_run EOL events _ (listenerConsistent_fresh name))
    as (_ & H1 & H2 & _).
  split; [exact H1 | intros N; now apply H2].
Qed.

Lemma at_most_one_listener_pass_in_flight_witness :
  let m := run LF (fresh "app.log")
             [CallWatch None; StatSettles 0 (stat (regular ""));
              Notify 0%nat change; Notify 0%nat change] in
  Accounting.passesInFlight m = 1%nat /\ isReading (this m) = true.
Proof.
  cbv zeta.
  assert (N : Accounting.passesInFlight
                (run LF (fresh "app.log")
                   [CallWatch None; StatSettles 0 (stat (regular ""));
                    Notify 0%nat change; Notify 0%nat change]) = 1%nat)
    by (vm_compute; reflexivity).
  split; [exact N|].
  exact (proj2 (at_most_one_listener_pass_in_flight LF "app.log"
                  [CallWatch None; StatSettles 0 (stat (regular ""));
                   Notify 0%nat change; Notify 0%nat change]) N).
Defined.

(** X8. The queue counter is never negative, it is at least 1 while a
    pass of the listener is in flight, and whenever the reading flag is
    clear it is 0 and no pass of the listener is in flight. *)
Theorem queue_counter_is_zero_when_idle
  (EOL name : string) (events : list Event) :
  let m := run EOL (fresh name) events in
  0 <= internalQueue (this m) /\
  (Accounting.passesInFlight m = 1%nat -> 1 <= internalQueue (this m)) /\
  (isReading (this m) = false ->
   internalQueue (this m) = 0 /\ Accounting.passesInFlight m = 0%nat).
Proof.
  cbv zeta.
  destruct (listenerConsistent_run EOL events _ (listenerConsistent_fresh name))
    as (H0 & _ & H2 & H3).
  split; [exact H0|].
  split; [intros N; now apply H2 | intros R; split; now apply H3].
Qed.

Lemma queue_counter_is_zero_when_idle_witness :
  let m := run LF (fresh "app.log")
             [CallWatch None; StatSettles 0 (stat (regular ""));
              Notify 0%nat change; Notify 0%nat change;
              PassSettles 0 (regular ("a" ++ LF));
              PassSettles 0 (regular ("a" ++ LF))] in
  isReading (this m) = false /\
  internalQueue (this m) = 0 /\ Accounting.passesInFlight m = 0%nat.
Proof.
  cbv zeta.
  assert (R : isReading (this
                (run LF (fresh "app.log")
                   [CallWatch None; StatSettles 0 (stat (regular ""));
                    Notify 0%nat change; Notify 0%nat change;
                    PassSettles 0 (regular ("a" ++ LF));
                    PassSettles 0 (regular ("a" ++ LF))])) = false)
    by (vm_compute; reflexivity).
  split; [exact R|].
  exact (proj2 (proj2 (queue_counter_is_zero_when_idle LF "app.log"
                  [CallWatch None; StatSettles 0 (stat (regular ""));
                   Notify 0%nat change; Notify 0%nat change;
                   PassSettles 0 (regular ("a" ++ LF));
                   PassSettles 0 (regular ("a" ++ LF))])) R).
Defined.

(** ** After a fatal error of a pass of the listener *)

Lemma no_pass_in_flight (m : Machine) (i : nat) :
  Accounting.passesInFlight m = 0%nat ->
  nth_error (tasks m) i <> Some AwaitPass.
Proof.
  intros N T. apply removeTask_pass in T. lia.
Qed.

Lemma deaf_step (EOL : string) (m : Machine) (e : Event) :
  isReading (this m) = true -> Accounting.passesInFlight m = 0%nat ->
  isReading (this (step EOL m e)) = true /\
  Accounting.passesInFlight (step EOL m e) = 0%nat /\
  passes (step EOL m e) = passes m.
Proof.
  intros R N. unfold Accounting.passesInFlight in *.
  destruct e as [c| |i answer|i answer|i fs|w ev]; cbn [step].
  - unfold watch. destruct (watcher (this m)); cbn; rewrite ?filter_app;
      cbn; rewrite ?app_nil_r; auto.
  - unfold unwatch, unwatchBody. destruct (watcher (this m)); cbn; auto.
  - destruct (nth_error (tasks m) i) as [[| | |]|] eqn:T; auto.
    destruct (afterStat_fields answer (removeTask i m)) as (_ & P & R' & _ & F).
    rewrite P, R', F.
    destruct (removeTask_filter Accounting.isAwaitPass m i _ T) as [E1 E2].
    rewrite E2. rewrite E1 in N. cbn in N. auto.
  - destruct (nth_error (tasks m) i) as [[| | |]|] eqn:T; auto.
    destruct (afterDirectoryWatcher_fields answer (removeTask i m))
      as (_ & P & R' & _ & F).
    rewrite P, R', F.
    destruct (removeTask_filter Accounting.isAwaitPass m i _ T) as [E1 E2].
    rewrite E2. rewrite E1 in N. cbn in N. auto.
  - destruct (nth_error (tasks m) i) as [[| |size|]|] eqn:T; auto.
    + destruct (afterCatchUpPass_fields EOL size fs (removeTask i m))
        as (_ & F & P & R' & _).
      rewrite P, R', F.
      destruct (removeTask_filter Accounting.isAwaitPass m i _ T) as [E1 E2].
      rewrite E2. rewrite E1 in N. cbn in N. auto.
    + now elim (no_pass_in_flight m i N).
  - destruct (existsb _ _); auto. destruct ev; auto.
    destruct (listener_cases w m) as (_ & R' & _ & _ & _ & _ & _ & C).
    rewrite R in C. destruct C as [T P]. now rewrite R', T, P.
Qed.

Lemma deaf_run (EOL : string) (events : list Event) (m : Machine) :
  isReading (this m) = true -> Accounting.passesInFlight m = 0%nat ->
  isReading (this (run EOL m events)) = true /\
  passes (run EOL m events) = passes m.
Proof.
  unfold run. revert m.
  induction events as [|e events IH]; intros m R N; [auto|].
  cbn [fold_left].
  destruct (deaf_step EOL m e R N) as (R' & N' & P).
  destruct (IH _ R' N') as [H1 H2]. now rewrite H1, H2, P.
Qed.

(** X9. When a pass of the listener throws an error other than
    file-not-found, the watch is closed and dropped, the error is the
    listener's rejection, and cursor, queue counter and reading flag are
    left as they were.  The flag, set for that pass, is then never
    cleared: whatever follows, new [watch()] calls and notifications
    included, the listener starts no pass again. *)
Theorem fatal_pass_error_silences_the_listener
  (EOL name : string) (events later : list Event) (i : nat)
  (fs : FileSystem) (err : Error) :
  let m := run EOL (fresh name) events in
  let failed := step EOL m (PassSettles i fs) in
  let afterwards := run EOL failed later in
  forall
    (Htask : nth_error (tasks m) i = Some AwaitPass)
    (Hthrown : snd (streamFileFromCursor EOL fs (this m)) = Some err)
    (Hfatal : notENOENT err = true),
  (watcher (this failed) = None /\ opened failed = [] /\
   outcomes failed = (outcomes m ++ [ListenerRejected err])%list /\
   cursor (this failed) = cursor (this m) /\
   internalQueue (this failed) = internalQueue (this m) /\
   isReading (this failed) = true) /\
  (isReading (this afterwards) = true /\ passes afterwards = passes failed).
Proof.
  cbv zeta. intros T Thrown Fatal.
  set (m := run EOL (fresh name) events) in *.
  pose proof (listenerConsistent_run EOL events _
                (listenerConsistent_fresh name)) as (_ & L1 & L2 & _).
  fold m in L1, L2.
  pose proof (oneHandle_run EOL events (fresh name) eq_refl) as O.
  fold m in O.
  pose proof (removeTask_pass m i T) as N.
  assert (N0 : Accounting.passesInFlight (removeTask i m) = 0%nat) by lia.
  destruct (L2 ltac:(lia)) as [R _].
  pose proof (afterPass_cases EOL fs (removeTask i m)) as C.
  cbv zeta in C. change (this (removeTask i m)) with (this m) in C.
  rewrite Thrown, Fatal in C.
  destruct C as (C1 & C2 & C3 & C4 & C5 & C6 & C7 & C8).
  cbn [step]. rewrite T.
  assert (S : (watcher (this (afterPass EOL fs (removeTask i m))) = None /\
     opened (afterPass EOL fs (removeTask i m)) = [] /\
     outcomes (afterPass EOL fs (removeTask i m)) =
       (outcomes m ++ [ListenerRejected err])%list /\
     cursor (this (afterPass EOL fs (removeTask i m))) = cursor (this m) /\
     internalQueue (this (afterPass EOL fs (removeTask i m))) =
       internalQueue (this m) /\
     isReading (this (afterPass EOL fs (removeTask i m))) = true)).
  { repeat match goal with |- _ /\ _ => split end; try assumption.
    - rewrite C7. unfold unwatchBody. cbn [removeTask this].
      red in O. destruct (watcher (this m)); cbn; rewrite O; cbn;
        rewrite ?Nat.eqb_refl; reflexivity.
    - unfold afterPass. change (this (removeTask i m)) with (this m).
      destruct (streamFileFromCursor EOL fs (this m)) as [[t' lines] thrown] eqn:E.
      cbn [snd] in Thrown. subst thrown.
      apply pass_thrown_keeps_session in E. subst t'.
      rewrite Fatal. unfold unwatchBody. cbn.
      destruct (watcher (this m)); reflexivity.
    - now rewrite C5. }
  split; [exact S|].
  destruct S as (_ & _ & _ & _ & _ & R').
  apply deaf_run; [exact R'|].
  unfold Accounting.passesInFlight in *. now rewrite C1.
Qed.

Lemma fatal_pass_error_silences_the_listener_witness :
  let broken :=
    {| stat := Throw (SystemError "EIO");
       createReadStream := fun _ _ => {| items := []; failure := None |} |} in
  let m := run LF (fresh "app.log")
             [CallWatch None; StatSettles 0 (stat (regular ""));
              Notify 0%nat change] in
  let failed := step LF m (PassSettles 0 broken) in
  let afterwards :=
    run LF failed
      [CallWatch None; StatSettles 0 (stat (regular ""));
       Notify 1%nat change; Notify 1%nat change] in
  (watcher (this failed) = None /\ opened failed = [] /\
   outcomes failed = (outcomes m ++ [ListenerRejected (SystemError "EIO")])%list /\
   cursor (this failed) = cursor (this m) /\
   internalQueue (this failed) = internalQueue (this m) /\
   isReading (this failed) = true) /\
  (isReading (this afterwards) = true /\ passes afterwards = passes failed).
Proof.
  apply (fatal_pass_error_silences_the_listener LF "app.log"
           [CallWatch None; StatSettles 0 (stat (regular ""));
            Notify 0%nat change]
           [CallWatch None; StatSettles 0 (stat (regular ""));
            Notify 1%nat change; Notify 1%nat change]
           0
           {| stat := Throw (SystemError "EIO");
              createReadStream := fun _ _ => {| items := []; failure := None |} |}
           (SystemError "EIO"));
    vm_compute; reflexivity.
Defined.

(** ** Pausing *)

Lemma pass_ignores_watcher (EOL : string) (fs : FileSystem) (t : TailCat)
  (w : option FSWatcher) :
  streamFileFromCursor EOL fs (setWatcher w t) =
  (setWatcher w (fst (fst (streamFileFromCursor EOL fs t))),
   snd (fst (streamFileFromCursor EOL fs t)),
   snd (streamFileFromCursor EOL fs t)).
Proof.
  unfold streamFileFromCursor. cbn [cursor setWatcher].
  destruct (stat fs) as [stats|err]; [|reflexivity].
  destruct (size stats <=? 0); [reflexivity|].
  destruct (cursor t >=? size stats); [reflexivity|].
  destruct (Splitter.processChunks _ _ _) as [lines tail].
  destruct (failure _); reflexivity.
Qed.

Lemma afterPass_cursor (EOL : string) (fs : FileSystem) (m : Machine) :
  cursor (this (afterPass EOL fs m)) =
  cursor (fst (fst (streamFileFromCursor EOL fs (this m)))).
Proof.
  unfold afterPass.
  destruct (streamFileFromCursor EOL fs (this m)) as [[t' lines] thrown].
  cbn [fst]. unfold loopTest, unwatchBody, startPass.
  destruct thrown as [err|]; [destruct (notENOENT err)|];
    cbn; machine_cases; reflexivity.
Qed.

(** X10. [unwatch()] does not abort a pass of the listener that is in
    flight: when the pass settles it emits the same lines and leaves the
    cursor at the same place as if [unwatch()] had not been called, and
    the session stays unwatched. *)
Theorem unwatch_lets_the_pass_in_flight_finish
  (EOL : string) (m : Machine) (i : nat) (fs : FileSystem)
  (Htask : nth_error (tasks m) i = Some AwaitPass) :
  let paused := step EOL (step EOL m CallUnwatch) (PassSettles i fs) in
  let watched := step EOL m (PassSettles i fs) in
  emitted paused = emitted watched /\
  cursor (this paused) = cursor (this watched) /\
  watcher (this paused) = None.
Proof.
  cbv zeta.
  assert (T : tasks (step EOL m CallUnwatch) = tasks m).
  { cbn. unfold unwatchBody. now destruct (watcher (this m)). }
  assert (E : emitted (step EOL m CallUnwatch) = emitted m).
  { cbn. unfold unwatchBody. now destruct (watcher (this m)). }
  assert (S : this (step EOL m CallUnwatch) = setWatcher None (this m)).
  { cbn. unfold unwatchBody. now destruct (watcher (this m)). }
  remember (step EOL m CallUnwatch) as u eqn:U. clear U.
  cbn [step]. rewrite T, Htask.
  rewrite !afterPass_emitted, !afterPass_cursor.
  change (this (removeTask i u)) with (this u).
  change (emitted (removeTask i u)) with (emitted u).
  change (this (removeTask i m)) with (this m).
  change (emitted (removeTask i m)) with (emitted m).
  rewrite S, E, pass_ignores_watcher. cbn [fst snd].
  repeat split.
  pose proof (afterPass_cases EOL fs (removeTask i u)) as C.
  cbv zeta in C. change (this (removeTask i u)) with (this u) in C.
  rewrite S in C.
  destruct (snd (streamFileFromCursor EOL fs (setWatcher None (this m))))
    as [err|].
  - destruct C as (_ & _ & _ & C). destruct (notENOENT err).
    + now destruct C as (_ & _ & -> & _).
    + now destruct C as (_ & _ & -> & _).
  - now destruct C as (_ & _ & -> & _).
Qed.

Lemma unwatch_lets_the_pass_in_flight_finish_witness :
  let m := run LF (watchingEmptyFile "app.log") [Notify 0%nat change] in
  let fs := regular ("foo" ++ LF) in
  let paused := step LF (step LF m CallUnwatch) (PassSettles 0 fs) in
  let watched := step LF m (PassSettles 0 fs) in
  emitted paused = emitted watched /\
  cursor (this paused) = cursor (this watched) /\
  watcher (this paused) = None.
Proof.
  apply (unwatch_lets_the_pass_in_flight_finish LF
           (run LF (watchingEmptyFile "app.log") [Notify 0%nat change])
           0 (regular ("foo" ++ LF))).
  vm_compute. reflexivity.
Defined.

(** X11. Once [unwatch()] has been called no notification reaches the
    session: until a watch is attached again, a notification for any
    handle changes nothing. *)
Theorem no_notification_after_unwatch
  (EOL name : string) (events : list Event) (w : FSWatcher) (ev : WatchEvent) :
  let m := step EOL (run EOL (fresh name) events) CallUnwatch in
  opened m = [] /\ step EOL m (Notify w ev) = m.
Proof.
  cbv zeta.
  pose proof (oneHandle_step EOL _ CallUnwatch
                (oneHandle_run EOL events (fresh name) eq_refl)) as O.
  assert (W : watcher (this (step EOL (run EOL (fresh name) events)
                               CallUnwatch)) = None).
  { cbn. unfold unwatchBody.
    now destruct (watcher (this (run EOL (fresh name) events))). }
  red in O. rewrite W in O.
  remember (step EOL (run EOL (fresh name) events) CallUnwatch) as u eqn:U.
  clear U. split; [exact O|]. cbn [step]. now rewrite O.
Qed.

(** ** How many watches a session attaches *)

Lemma detaches_settle (o : Outcome) (m : Machine) :
  Accounting.detaches (settle o m) =
  (Accounting.detaches m + if Accounting.isDetach o then 1 else 0)%nat.
Proof.
  unfold Accounting.detaches. cbn [settle outcomes].
  rewrite filter_app, length_app. cbn [filter].
  now destruct (Accounting.isDetach o).
Qed.

Lemma accounted_refl (m : Machine) : Accounting.accounted m m.
Proof. unfold Accounting.accounted. lia. Qed.

Lemma accounted_trans (a b c : Machine) :
  Accounting.accounted a b -> Accounting.accounted b c ->
  Accounting.accounted a c.
Proof. unfold Accounting.accounted. lia. Qed.

Lemma accounted_same (m m' : Machine) :
  attached m' = attached m -> watcher (this m') = watcher (this m) ->
  outcomes m' = outcomes m -> Accounting.accounted m m'.
Proof.
  unfold Accounting.accounted, Accounting.watching, Accounting.detaches.
  intros -> -> ->. lia.
Qed.

Lemma accounted_settle (o : Outcome) (m : Machine) :
  Accounting.accounted m (settle o m).
Proof.
  unfold Accounting.accounted. rewrite detaches_settle.
  cbn [settle attached]. unfold Accounting.watching. cbn [settle this]. lia.
Qed.

Lemma accounted_attach (m : Machine) : Accounting.accounted m (attach m).
Proof.
  unfold Accounting.accounted, Accounting.watching, Accounting.detaches, attach.
  destruct m as [[c r w p q] ts op at_ em oc ps]. cbn.
  destruct w; cbn; lia.
Qed.

Lemma accounted_unwatchBody (o : Outcome) (m : Machine) :
  Accounting.isDetach o = true ->
  Accounting.accounted m (settle o (unwatchBody m)).
Proof.
  intros D. unfold Accounting.accounted. rewrite detaches_settle, D.
  unfold Accounting.watching, Accounting.detaches, unwatchBody.
  destruct m as [[c r w p q] ts op at_ em oc ps]. cbn.
  destruct w; cbn; lia.
Qed.

Lemma accounted_afterCatchUp (size : option Z) (m : Machine) :
  Accounting.accounted m (afterCatchUp size m).
Proof.
  unfold afterCatchUp.
  set (clamped := if gtNumber _ _ then _ else _).
  assert (H : Accounting.accounted m clamped).
  { subst clamped. destruct (gtNumber _ _); [|apply accounted_refl].
    destruct size; [|apply accounted_refl]. now apply accounted_same. }
  eapply accounted_trans; [exact H|].
  eapply accounted_trans; [apply accounted_attach | apply accounted_settle].
Qed.

Lemma accounted_afterTry (size : option Z) (m : Machine) :
  Accounting.accounted m (afterTry size m).
Proof.
  unfold afterTry. destruct (ltNumber _ _).
  - now apply accounted_same.
  - apply accounted_afterCatchUp.
Qed.

Lemma accounted_step (EOL : string) (m : Machine) (e : Event) :
  Accounting.accounted m (step EOL m e).
Proof.
  destruct e as [c| |i answer|i answer|i fs|w ev]; cbn [step].
  - unfold watch. destruct (watcher (this m)) eqn:W.
    + apply accounted_settle.
    + apply accounted_same; cbn; congruence.
  - unfold unwatch. now apply (accounted_unwatchBody (UnwatchResolved _)).
  - destruct (nth_error (tasks m) i) as [[| | |]|]; try apply accounted_refl.
    apply (accounted_trans _ (removeTask i m));
      [now apply accounted_same|].
    unfold afterStat. destruct answer as [fileData|err].
    + cbn [truthyMethod negb]. apply accounted_afterTry.
    + destruct (notENOENT err);
        [apply accounted_settle | now apply accounted_same].
  - destruct (nth_error (tasks m) i) as [[| | |]|]; try apply accounted_refl.
    apply (accounted_trans _ (removeTask i m));
      [now apply accounted_same|].
    unfold afterDirectoryWatcher. destruct answer as [u|err].
    + apply accounted_afterTry.
    + apply accounted_settle.
  - destruct (nth_error (tasks m) i) as [[| |size|]|]; try apply accounted_refl.
    + unfold afterCatchUpPass. change (this (removeTask i m)) with (this m).
      destruct (streamFileFromCursor EOL fs (this m)) as [[t' lines] thrown] eqn:E.
      apply pass_keeps_fields in E. destruct E as (_ & W & _).
      apply (accounted_trans _ (emit lines (withThis (fun _ => t') (removeTask i m))));
        [now apply accounted_same|].
      destruct thrown; [apply accounted_settle | apply accounted_afterCatchUp].
    + unfold afterPass. change (this (removeTask i m)) with (this m).
      destruct (streamFileFromCursor EOL fs (this m)) as [[t' lines] thrown] eqn:E.
      apply pass_keeps_fields in E. destruct E as (_ & W & _).
      apply (accounted_trans _ (emit lines (withThis (fun _ => t') (removeTask i m))));
        [now apply accounted_same|].
      destruct thrown as [err|].
      * destruct (notENOENT err).
        -- now apply (accounted_unwatchBody (ListenerRejected err)).
        -- apply accounted_same; unfold loopTest; cbn; reflexivity.
      * apply accounted_same; unfold loopTest, startPass; cbn;
          machine_cases; reflexivity.
  - destruct (existsb _ _); [|apply accounted_refl].
    destruct ev; [apply accounted_refl|].
    destruct (listener_cases w m) as (_ & _ & _ & W & _ & A & O & _).
    now apply accounted_same.
Qed.

(** X12. A session never attaches more watches than it can account for:
    at any moment the number of [fs.watch] calls made on the file is at
    most the number of detachments (calls of [unwatch()] and fatal errors
    of the listener), plus one if the session holds a watch.  Calls of
    [watch()] alone, however they overlap, attach one watch at most. *)
Theorem watches_attached_are_accounted_for
  (EOL name : string) (events : list Event) :
  let m := run EOL (fresh name) events in
  (attached m <= Accounting.watching m + Accounting.detaches m)%nat /\
  (Accounting.watching m <= 1)%nat.
Proof.
  cbv zeta.
  assert (H : forall evs m0,
     Accounting.accounted m0 (run EOL m0 evs)).
  { unfold run. induction evs as [|e evs IH]; intros m0;
      [apply accounted_refl|].
    cbn [fold_left]. eapply accounted_trans;
      [apply accounted_step | apply IH]. }
  specialize (H events (fresh name)).
  unfold Accounting.accounted in H.
  change (attached (fresh name)) with 0%nat in H.
  change (Accounting.watching (fresh name)) with 0%nat in H.
  change (Accounting.detaches (fresh name)) with 0%nat in H.
  split; [lia|].
  unfold Accounting.watching.
  destruct (watcher (this (run EOL (fresh name) events))); lia.
Qed.

(** ** The cursor while watching *)

Lemma forallb_nth {A : Type} (p : A -> bool) (l : list A) (i : nat) (x : A) :
  forallb p l = true -> nth_error l i = Some x -> p x = true.
Proof.
  intros F H. apply nth_error_In in H.
  rewrite forallb_forall in F. now apply F.
Qed.

Lemma forallb_removeTask (p : Task -> bool) (m : Machine) (i : nat) :
  forallb p (tasks m) = true -> forallb p (tasks (removeTask i m)) = true.
Proof.
  cbn [removeTask tasks]. generalize (tasks m) as l. intros l. revert i.
  induction l as [|x l IH]; intros [|i] F; try reflexivity.
  - cbn in F. apply andb_true_iff in F. now destruct F.
  - cbn in F. apply andb_true_iff in F. destruct F as [Px F].
    cbn [firstn skipn app forallb]. rewrite Px. now apply IH.
Qed.

Lemma quiet_step (EOL : string) (m : Machine) (e : Event) :
  Accounting.noWatchInProgress m = true ->
  Accounting.isCallWatch e = false ->
  Accounting.noWatchInProgress (step EOL m e) = true /\
  cursor (this m) <= cursor (this (step EOL m e)).
Proof.
  unfold Accounting.noWatchInProgress. intros Q C.
  destruct e as [c| |i answer|i answer|i fs|w ev]; cbn [step];
    try discriminate C.
  - unfold unwatch, unwatchBody. destruct (watcher (this m)); cbn;
      split; try assumption; lia.
  - destruct (nth_error (tasks m) i) as [[| | |]|] eqn:T;
      try (split; [assumption | lia]).
    now pose proof (forallb_nth _ _ _ _ Q T).
  - destruct (nth_error (tasks m) i) as [[| | |]|] eqn:T;
      try (split; [assumption | lia]).
    now pose proof (forallb_nth _ _ _ _ Q T).
  - destruct (nth_error (tasks m) i) as [[| |size|]|] eqn:T;
      try (split; [assumption | lia]).
    + now pose proof (forallb_nth _ _ _ _ Q T).
    + pose proof (forallb_removeTask _ m i Q) as Q'.
      rewrite afterPass_cursor. change (this (removeTask i m)) with (this m).
      split; [|apply pass_cursor_le].
      pose proof (afterPass_cases EOL fs (removeTask i m)) as A.
      cbv zeta in A.
      destruct (snd (streamFileFromCursor EOL fs (this (removeTask i m))))
        as [err|].
      * destruct A as (-> & _). exact Q'.
      * destruct A as (_ & _ & _ & _ & _ & A).
        destruct (_ =? 0); destruct A as (-> & _); [exact Q'|].
        rewrite forallb_app, Q'. reflexivity.
  - destruct (existsb _ _); [|split; [assumption | lia]].
    destruct ev; [cbn [listener]; split; [assumption | lia]|].
    destruct (listener_cases w m) as (_ & _ & -> & _ & _ & _ & _ & L).
    split; [|lia].
    destruct (isReading (this m)); destruct L as (-> & _); [exact Q|].
    rewrite forallb_app, Q. reflexivity.
Qed.

(** X13. While no [watch()] call is in progress and none is made, the
    cursor never moves backwards, whatever notifications arrive, passes
    settle or [unwatch()] calls are made. *)
Theorem cursor_never_moves_back_while_watching
  (EOL : string) (m : Machine) (events : list Event)
  (Hquiet : Accounting.noWatchInProgress m = true)
  (Hnocall : forallb (fun e => negb (Accounting.isCallWatch e)) events = true) :
  cursor (this m) <= cursor (this (run EOL m events)).
Proof.
  unfold run. revert m Hquiet.
  induction events as [|e events IH]; intros m Q; [cbn; lia|].
  cbn [forallb] in Hnocall. apply andb_true_iff in Hnocall.
  destruct Hnocall as [C F]. apply negb_true_iff in C.
  destruct (quiet_step EOL m e Q C) as [Q' L].
  cbn [fold_left]. specialize (IH F _ Q'). lia.
Qed.

Lemma cursor_never_moves_back_while_watching_witness :
  let m := watchingEmptyFile "app.log" in
  let events := [Notify 0%nat change; PassSettles 0 (regular ("foo" ++ LF));
                 CallUnwatch] in
  cursor (this m) <= cursor (this (run LF m events)).
Proof.
  apply (cursor_never_moves_back_while_watching LF
           (watchingEmptyFile "app.log")
           [Notify 0%nat change; PassSettles 0 (regular ("foo" ++ LF));
            CallUnwatch]);
    vm_compute; reflexivity.
Defined.

(** ** [watch()] when something fails *)

(** X14. An error of [stat] other than file-not-found rejects
    [watch()] with that error: nothing is read, no watch is attached,
    and the cursor keeps the value [watch()] gave it. *)
Theorem watch_rejects_with_the_error_of_stat
  (EOL : string) (m : Machine) (i : nat) (err : Error)
  (Htask : nth_error (tasks m) i = Some AwaitStat)
  (Hfatal : notENOENT err = true) :
  let m' := step EOL m (StatSettles i (Throw err)) in
  outcomes m' = (outcomes m ++ [WatchRejected err])%list /\
  this m' = this m /\ opened m' = opened m /\ attached m' = attached m /\
  emitted m' = emitted m /\ tasks m' = tasks (removeTask i m).
Proof.
  cbv zeta. cbn [step]. rewrite Htask. unfold afterStat. rewrite Hfatal.
  repeat split.
Qed.

Lemma watch_rejects_with_the_error_of_stat_witness :
  let m := run LF (fresh "/root/secret") [CallWatch (Some 7)] in
  let m' := step LF m (StatSettles 0 (Throw (SystemError "EACCES"))) in
  outcomes m' = (outcomes m ++ [WatchRejected (SystemError "EACCES")])%list /\
  this m' = this m /\ opened m' = opened m /\ attached m' = attached m /\
  emitted m' = emitted m /\ tasks m' = tasks (removeTask 0 m).
Proof.
  apply (watch_rejects_with_the_error_of_stat LF
           (run LF (fresh "/root/secret") [CallWatch (Some 7)]) 0
           (SystemError "EACCES")); reflexivity.
Defined.

(** X15. An error thrown by the catch-up pass of [watch()] rejects
    [watch()] with that error, file-not-found included: it is not
    absorbed as it is in the listener.  For one call of [watch] on a
    session at rest, nothing else happening meanwhile: no watch is
    attached and the cursor stays where the call put it, while the lines
    of the chunks delivered before the error are emitted. *)
Theorem watch_rejects_with_the_error_of_catch_up
  (EOL : string) (m : Machine) (from : Z) (stats : Stats)
  (passFs : FileSystem) (err : Error)
  (Hquiet : tasks m = [])
  (Hidle : watcher (this m) = None)
  (Hbehind : from < size stats)
  (Hthrown : snd (streamFileFromCursor EOL passFs (setCursor from (this m)))
             = Some err) :
  let rejected :=
    run EOL m [CallWatch (Some from); StatSettles 0 (Ok stats);
               PassSettles 0 passFs] in
  outcomes rejected = (outcomes m ++ [WatchRejected err])%list /\
  this rejected = setCursor from (this m) /\
  opened rejected = opened m /\ attached rejected = attached m /\
  tasks rejected = [] /\
  emitted rejected =
    (emitted m ++
     snd (fst (streamFileFromCursor EOL passFs (setCursor from (this m)))))%list.
Proof.
  assert (L : (from <? size stats) = true) by now apply Z.ltb_lt.
  destruct m as [[c r w p q] ts op at_ em oc ps].
  cbn in Hquiet, Hidle. subst ts w. unfold setCursor in *. cbn in Hthrown.
  cbv zeta. unfold run. cbn [fold_left step]. unfold watch. cbn.
  unfold afterStat, afterTry. cbn. rewrite L. cbn.
  unfold afterCatchUpPass. cbn.
  destruct (streamFileFromCursor EOL passFs _) as [[t' lines] thrown] eqn:E.
  cbn in Hthrown. subst thrown.
  apply pass_thrown_keeps_session in E. subst t'. cbn. repeat split.
Qed.

Lemma watch_rejects_with_the_error_of_catch_up_witness :
  let m := fresh "app.log" in
  let rejected :=
    run LF m [CallWatch (Some 0); StatSettles 0 (stat (regular ("old" ++ LF)));
              PassSettles 0 deleted] in
  outcomes rejected = (outcomes m ++ [WatchRejected ENOENT])%list /\
  this rejected = setCursor 0 (this m) /\
  opened rejected = opened m /\ attached rejected = attached m /\
  tasks rejected = [] /\
  emitted rejected =
    (emitted m ++
     snd (fst (streamFileFromCursor LF deleted (setCursor 0 (this m)))))%list.
Proof.
  apply (watch_rejects_with_the_error_of_catch_up LF (fresh "app.log") 0
           {| size := 4; isFile := fun _ => true |} deleted ENOENT);
    reflexivity.
Defined.

(** ** [watch()] when the catch-up pass settles *)

(** X16. For one call of [watch] on a session at rest, nothing else
    happening meanwhile: when its catch-up pass settles without error,
    [watch()] resolves with the cursor at the smaller of the place the
    pass left it and the size [watch()] itself had read before the pass.
    The lines of the pass are emitted, but the cursor is never above
    that earlier size. *)
Theorem watch_resolves_with_cursor_clamped_to_first_size
  (EOL : string) (m : Machine) (from : Z) (stats : Stats)
  (passFs : FileSystem)
  (Hquiet : tasks m = [])
  (Hidle : watcher (this m) = None)
  (Hbehind : from < size stats)
  (Hsettled : snd (streamFileFromCursor EOL passFs (setCursor from (this m)))
              = None) :
  let resolved :=
    run EOL m [CallWatch (Some from); StatSettles 0 (Ok stats);
               PassSettles 0 passFs] in
  let pass := streamFileFromCursor EOL passFs (setCursor from (this m)) in
  cursor (this resolved) = Z.min (cursor (fst (fst pass))) (size stats) /\
  emitted resolved = (emitted m ++ snd (fst pass))%list /\
  outcomes resolved = (outcomes m ++ [WatchResolved])%list.
Proof.
  assert (L : (from <? size stats) = true) by now apply Z.ltb_lt.
  destruct m as [[c r w p q] ts op at_ em oc ps].
  cbn in Hquiet, Hidle. subst ts w. unfold setCursor in *. cbn in Hsettled.
  cbv zeta. unfold run. cbn [fold_left step]. unfold watch. cbn.
  unfold afterStat, afterTry. cbn. rewrite L. cbn.
  unfold afterCatchUpPass. cbn.
  destruct (streamFileFromCursor EOL passFs _) as [[t' lines] thrown] eqn:E.
  cbn in Hsettled. subst thrown.
  apply pass_keeps_fields in E. destruct E as (_ & W & _). cbn in W.
  unfold afterCatchUp, attach. cbn.
  destruct (cursor t' >? size stats) eqn:G; rewrite Z.gtb_ltb in G;
    [apply Z.ltb_lt in G | apply Z.ltb_ge in G];
    cbn; rewrite ?W; cbn; repeat split; lia.
Qed.

Lemma watch_resolves_with_cursor_clamped_to_first_size_witness :
  let m := fresh "app.log" in
  let grown := regular ("one" ++ LF ++ "two" ++ LF) in
  let resolved :=
    run LF m [CallWatch (Some 0); StatSettles 0 (stat (regular ("one" ++ LF)));
              PassSettles 0 grown] in
  let pass := streamFileFromCursor LF grown (setCursor 0 (this m)) in
  (cursor (fst (fst pass)) = 8 /\ emitted resolved = ["one"; "two"] /\
   cursor (this resolved) = 4) /\
  cursor (this resolved) = Z.min (cursor (fst (fst pass))) 4 /\
  emitted resolved = (emitted m ++ snd (fst pass))%list /\
  outcomes resolved = (outcomes m ++ [WatchResolved])%list.
Proof.
  split; [repeat split|].
  apply (watch_resolves_with_cursor_clamped_to_first_size LF (fresh "app.log")
           0 {| size := 4; isFile := fun _ => true |}
           (regular ("one" ++ LF ++ "two" ++ LF))); reflexivity.
Defined.

(** ** Waiting for a file that does not exist yet *)

Lemma directoryWatcher_skips (basename : string -> string) (t : TailCat)
  (pre rest : list DirectoryWatcher.Report) :
  forallb (DirectoryWatcher.ignored basename t) pre = true ->
  DirectoryWatcher.directoryWatcher basename t (pre ++ rest) =
  DirectoryWatcher.directoryWatcher basename t rest.
Proof.
  induction pre as [|report pre IH]; intros F; [reflexivity|].
  cbn [forallb] in F. apply andb_true_iff in F. destruct F as [I F].
  destruct report as [event fileName|err]; [|discriminate I].
  cbn [DirectoryWatcher.ignored] in I. apply negb_true_iff in I.
  cbn [app DirectoryWatcher.directoryWatcher]. rewrite I. now apply IH.
Qed.

Lemma directoryWatcher_pending (basename : string -> string) (t : TailCat)
  (pre : list DirectoryWatcher.Report) :
  forallb (DirectoryWatcher.ignored basename t) pre = true ->
  DirectoryWatcher.directoryWatcher basename t pre = None.
Proof.
  intros F. rewrite <- (app_nil_r pre). now rewrite directoryWatcher_skips.
Qed.

(** X17. The promise of [directoryWatcher] stays pending as long as the
    directory watch only reports 'change' events that are not a 'rename'
    of the file's base name.  The first other report settles it, a
    'rename' of the base name by resolving, an 'error' by rejecting with
    that error, and nothing reported later changes the outcome. *)
Theorem directory_watcher_settles_on_the_first_relevant_report
  (basename : string -> string) (t : TailCat)
  (pre post : list DirectoryWatcher.Report) (report : DirectoryWatcher.Report)
  (Hpre : forallb (DirectoryWatcher.ignored basename t) pre = true)
  (Hreport : DirectoryWatcher.ignored basename t report = false) :
  DirectoryWatcher.directoryWatcher basename t pre = None /\
  DirectoryWatcher.directoryWatcher basename t (pre ++ report :: post) =
    Some (match report with
          | DirectoryWatcher.Changed _ _ => Ok tt
          | DirectoryWatcher.Failed err => Throw err
          end).
Proof.
  split.
  - now apply directoryWatcher_pending.
  - rewrite (directoryWatcher_skips _ _ _ _ Hpre).
    destruct report as [event fileName|err]; [|reflexivity].
    cbn [DirectoryWatcher.ignored] in Hreport.
    apply negb_false_iff in Hreport.
    cbn [DirectoryWatcher.directoryWatcher]. now rewrite Hreport.
Qed.

Lemma directory_watcher_settles_on_the_first_relevant_report_witness :
  let basename := fun _ : string => "app.log" in
  let t := this (fresh "/var/log/app.log") in
  let pre := [DirectoryWatcher.Changed rename (Some "other.log");
              DirectoryWatcher.Changed change (Some "app.log");
              DirectoryWatcher.Changed rename None] in
  let report := DirectoryWatcher.Changed rename (Some "app.log") in
  let post := [DirectoryWatcher.Failed (SystemError "EIO")] in
  DirectoryWatcher.directoryWatcher basename t pre = None /\
  DirectoryWatcher.directoryWatcher basename t (pre ++ report :: post) =
    Some (Ok tt).
Proof.
  apply (directory_watcher_settles_on_the_first_relevant_report
           (fun _ : string => "app.log") (this (fresh "/var/log/app.log"))
           [DirectoryWatcher.Changed rename (Some "other.log");
            DirectoryWatcher.Changed change (Some "app.log");
            DirectoryWatcher.Changed rename None]
           [DirectoryWatcher.Failed (SystemError "EIO")]
           (DirectoryWatcher.Changed rename (Some "app.log")));
    reflexivity.
Defined.

(** X18. [watch()] on a file that does not exist, when the watch on its
    parent directory can be opened: while that watch reports nothing
    relevant the promise stays pending and nothing changes; on the
    'rename' of the file's base name the watch on the file is attached
    and the promise resolves.  The file is not looked at again before
    that: nothing is read or emitted and the cursor stays as [watch()]
    set it.  When opening the watch on the parent directory throws,
    [watch()] is rejected with that error and attaches nothing. *)
Theorem watch_on_missing_file_waits_for_its_creation
  (EOL : string) (basename : string -> string) (m : Machine)
  (err refusal : Error) (pre post : list DirectoryWatcher.Report)
  (Htask : tasks m = [AwaitStat])
  (Hidle : watcher (this m) = None)
  (Hmissing : code err = Some "ENOENT")
  (Hpre : forallb (DirectoryWatcher.ignored basename (this m)) pre = true) :
  let waiting := step EOL m (StatSettles 0 (Throw err)) in
  let created :=
    DirectoryWatcher.Changed rename (Some (basename (filePath (this m)))) in
  let resolved :=
    DirectoryWatcher.awaitDirectoryWatcher basename EOL 0 (Ok tt)
      (pre ++ created :: post) waiting in
  let refused :=
    DirectoryWatcher.awaitDirectoryWatcher basename EOL 0 (Throw refusal)
      (pre ++ created :: post) waiting in
  (tasks waiting = [AwaitDirectoryWatcher] /\ outcomes waiting = outcomes m /\
   this waiting = this m /\
   DirectoryWatcher.awaitDirectoryWatcher basename EOL 0 (Ok tt) pre waiting
     = waiting) /\
  (outcomes resolved = (outcomes m ++ [WatchResolved])%list /\
   watcher (this resolved) = Some (attached m) /\
   opened resolved = attached m :: opened m /\
   cursor (this resolved) = cursor (this m) /\
   emitted resolved = emitted m /\ tasks resolved = []) /\
  (outcomes refused = (outcomes m ++ [WatchRejected refusal])%list /\
   this refused = this m /\ opened refused = opened m /\
   attached refused = attached m /\ emitted refused = emitted m /\
   tasks refused = []).
Proof.
  cbv zeta.
  assert (W : step EOL m (StatSettles 0 (Throw err)) =
              spawn AwaitDirectoryWatcher (removeTask 0 m)).
  { cbn [step]. rewrite Htask. cbn [nth_error]. unfold afterStat.
    now rewrite (code_ENOENT _ Hmissing). }
  rewrite W. clear W.
  pose proof (directoryWatcher_pending basename (this m) pre Hpre) as P.
  assert (S : DirectoryWatcher.directoryWatcher basename (this m)
                (pre ++ DirectoryWatcher.Changed rename
                          (Some (basename (filePath (this m)))) :: post)
              = Some (Ok tt)).
  { rewrite (directoryWatcher_skips _ _ _ _ Hpre).
    cbn [DirectoryWatcher.directoryWatcher DirectoryWatcher.resolves].
    now rewrite String.eqb_refl. }
  unfold DirectoryWatcher.awaitDirectoryWatcher.
  change (this (spawn AwaitDirectoryWatcher (removeTask 0 m))) with (this m).
  rewrite P, S. cbn [step spawn removeTask tasks]. rewrite Htask.
  cbn [firstn skipn app nth_error].
  unfold afterDirectoryWatcher, afterTry, afterCatchUp, attach.
  destruct m as [[c r w p q] ts op at_ em oc ps].
  cbn in Hidle, Htask. subst w ts. cbn. repeat split.
Qed.

Lemma watch_on_missing_file_waits_for_its_creation_witness :
  let basename := fun _ : string => "app.log" in
  let m := run LF (fresh "/var/log/app.log") [CallWatch None] in
  let pre := [DirectoryWatcher.Changed rename (Some "other.log")] in
  let post := [DirectoryWatcher.Changed change (Some "app.log")] in
  let waiting := step LF m (StatSettles 0 (Throw ENOENT)) in
  let created :=
    DirectoryWatcher.Changed rename (Some (basename (filePath (this m)))) in
  let resolved :=
    DirectoryWatcher.awaitDirectoryWatcher basename LF 0 (Ok tt)
      (pre ++ created :: post) waiting in
  let refused :=
    DirectoryWatcher.awaitDirectoryWatcher basename LF 0 (Throw ENOENT)
      (pre ++ created :: post) waiting in
  (tasks waiting = [AwaitDirectoryWatcher] /\ outcomes waiting = outcomes m /\
   this waiting = this m /\
   DirectoryWatcher.awaitDirectoryWatcher basename LF 0 (Ok tt) pre waiting
     = waiting) /\
  (outcomes resolved = (outcomes m ++ [WatchResolved])%list /\
   watcher (this resolved) = Some (attached m) /\
   opened resolved = attached m :: opened m /\
   cursor (this resolved) = cursor (this m) /\
   emitted resolved = emitted m /\ tasks resolved = []) /\
  (outcomes refused = (outcomes m ++ [WatchRejected ENOENT])%list /\
   this refused = this m /\ opened refused = opened m /\
   attached refused = attached m /\ emitted refused = emitted m /\
   tasks refused = []).
Proof.
  apply (watch_on_missing_file_waits_for_its_creation LF
           (fun _ : string => "app.log")
           (run LF (fresh "/var/log/app.log") [CallWatch None]) ENOENT ENOENT
           [DirectoryWatcher.Changed rename (Some "other.log")]
           [DirectoryWatcher.Changed change (Some "app.log")]);
    reflexivity.
Defined.

(** ** Pause and resume *)

(** X19. A cursor returned by [unwatch()] can be handed back: when no
    [watch()] call is in progress and the file still has the size the
    cursor points at, [unwatch()] followed by [watch()] with the returned
    cursor reads nothing, emits nothing, leaves the cursor where it was
    and attaches one new watch. *)
Theorem resume_with_returned_cursor_reads_nothing
  (EOL : string) (m : Machine) (stats : Stats)
  (Hquiet : tasks m = [])
  (Hsame : size stats = cursor (this m)) :
  let returned := cursor (this m) in
  let resumed :=
    run EOL m [CallUnwatch; CallWatch (Some returned);
               StatSettles 0 (Ok stats)] in
  outcomes resumed =
    (outcomes m ++ [UnwatchResolved returned; WatchResolved])%list /\
  emitted resumed = emitted m /\
  cursor (this resumed) = returned /\
  watcher (this resumed) = Some (attached m) /\
  attached resumed = S (attached m) /\
  tasks resumed = [].
Proof.
  cbv zeta. unfold run. cbn [fold_left step].
  unfold unwatch, unwatchBody, watch.
  destruct m as [[c r w p q] ts op at_ em oc ps].
  cbn in Hquiet, Hsame. subst ts.
  destruct w; cbn; unfold afterStat, afterTry, afterCatchUp, attach; cbn;
    rewrite Hsame, Z.ltb_irrefl, Z.gtb_ltb, Z.ltb_irrefl; cbn;
    rewrite <- app_assoc; repeat split.
Qed.

Lemma resume_with_returned_cursor_reads_nothing_witness :
  let m := run LF (watchingEmptyFile "app.log")
             [Notify 0%nat change; PassSettles 0 (regular ("foo" ++ LF))] in
  let resumed :=
    run LF m [CallUnwatch; CallWatch (Some 4);
              StatSettles 0 (stat (regular ("foo" ++ LF)))] in
  cursor (this m) = 4 /\
  outcomes resumed =
    (outcomes m ++ [UnwatchResolved 4; WatchResolved])%list /\
  emitted resumed = emitted m /\
  cursor (this resumed) = 4 /\
  watcher (this resumed) = Some (attached m) /\
  attached resumed = S (attached m) /\
  tasks resumed = [].
Proof.
  split; [reflexivity|].
  apply (resume_with_returned_cursor_reads_nothing LF
           (run LF (watchingEmptyFile "app.log")
              [Notify 0%nat change; PassSettles 0 (regular ("foo" ++ LF))])
           {| size := 4; isFile := fun _ => true |}); reflexivity.
Defined.

(** X20. Eager catch-up: on a session that is not watching, [watch()]
    with a cursor below the size of the file reads from that cursor,
    whatever the cursor stored before, and emits what it reads before the
    promise resolves; it resolves with the cursor at the size and one new
    watch attached. *)
Theorem watch_with_cursor_catches_up_from_it
  (EOL : string) (m : Machine) (from : Z) (fs : FileSystem) (stats : Stats)
  (Hquiet : tasks m = [])
  (Hidle : watcher (this m) = None)
  (Hstat : stat fs = Ok stats)
  (Hsize : 0 < size stats)
  (Hbehind : from < size stats)
  (Hread : failure (createReadStream fs from (size stats)) = None) :
  let called := run EOL m [CallWatch (Some from); StatSettles 0 (stat fs)] in
  let resolved := step EOL called (PassSettles 0 fs) in
  (outcomes called = outcomes m /\ emitted called = emitted m /\
   tasks called = [AwaitCatchUp (Some (size stats))]) /\
  (emitted resolved =
     (emitted m ++
      fst (Splitter.processChunks EOL ""
             (items (createReadStream fs from (size stats)))))%list /\
   cursor (this resolved) = size stats /\
   outcomes resolved = (outcomes m ++ [WatchResolved])%list /\
   watcher (this resolved) = Some (attached m) /\
   tasks resolved = []).
Proof.
  assert (L : (from <? size stats) = true) by now apply Z.ltb_lt.
  destruct m as [[c r w p q] ts op at_ em oc ps].
  cbn in Hquiet, Hidle. subst ts w.
  cbv zeta. unfold run. cbn [fold_left step]. unfold watch. cbn.
  rewrite Hstat. unfold afterStat, afterTry. cbn. rewrite L. cbn.
  split; [repeat split|].
  unfold afterCatchUpPass, streamFileFromCursor. cbn. rewrite Hstat.
  destruct (size stats <=? 0) eqn:E1; [apply Z.leb_le in E1; lia|].
  destruct (from >=? size stats) eqn:E2;
    [rewrite Z.geb_leb in E2; apply Z.leb_le in E2; lia|].
  destruct (Splitter.processChunks _ _ _) as [lines tail]. rewrite Hread.
  unfold afterCatchUp, attach. cbn.
  rewrite Z.gtb_ltb, Z.ltb_irrefl. cbn.
  repeat split.
Qed.

Lemma watch_with_cursor_catches_up_from_it_witness :
  let m := run LF (watchingEmptyFile "app.log")
             [Notify 0%nat change; PassSettles 0 (regular ("one" ++ LF));
              CallUnwatch] in
  let fs := regular ("one" ++ LF ++ "two" ++ LF) in
  let called := run LF m [CallWatch (Some 4); StatSettles 0 (stat fs)] in
  let resolved := step LF called (PassSettles 0 fs) in
  (outcomes called = outcomes m /\ emitted called = emitted m /\
   tasks called = [AwaitCatchUp (Some 8)]) /\
  (emitted resolved =
     (emitted m ++
      fst (Splitter.processChunks LF "" (items (createReadStream fs 4 8))))%list /\
   cursor (this resolved) = 8 /\
   outcomes resolved = (outcomes m ++ [WatchResolved])%list /\
   watcher (this resolved) = Some (attached m) /\
   tasks resolved = []).
Proof.
  apply (watch_with_cursor_catches_up_from_it LF
           (run LF (watchingEmptyFile "app.log")
              [Notify 0%nat change; PassSettles 0 (regular ("one" ++ LF));
               CallUnwatch])
           4 (regular ("one" ++ LF ++ "two" ++ LF))
           {| size := 8; isFile := fun _ => true |}); reflexivity.
Defined.
